(** * Billboard Hot 100 pipeline: importer and exporter

    A shallow embedding of [billboard_import.py] and [export_to_html.py].

    Python strings are modelled as [string] holding their UTF-8 bytes:
    the three escaped characters, the space and the URL-safe characters
    are all single bytes that never occur inside a multi-byte sequence,
    so escaping and percent-encoding act on bytes exactly as the Python
    code acts on code points.

    Python statements that read or change the process state (the
    database session, the log, the output disk) are written in a small
    state-and-exception monad [M]: an exception leaves the state as it
    was when it was raised, which is what lets rows inserted before a
    fault still be committed by the caller. *)

From Stdlib Require Import ZArith Ascii String List Lia.
From stdpp Require Import base option list strings pretty gmap sorting.

(** ** Python values, exceptions and results *)

Module Py.

(** Errors of [mysql.connector]: [Error] and its subclass
    [IntegrityError], with the server's error number. *)
Record mysql_error := MySQLError {
  integrity : bool;   (* an instance of IntegrityError *)
  errno : Z;
  errmsg : string     (* str(e) *)
}.

Inductive exn :=
| OSError (msg : string)
| JSONDecodeError (msg : string)
| AttributeError (msg : string)
| TypeError (msg : string)
| KeyError (msg : string)
| ValueError (msg : string)
| PyException (msg : string)      (* raise Exception("...") *)
| DbError (e : mysql_error)       (* mysql.connector.Error *)
| SystemExit (code : Z).          (* sys.exit(code) *)

(** [except Exception] catches everything but [SystemExit]. *)
Definition is_Exception (e : exn) : bool :=
  match e with SystemExit _ => false | _ => true end.

Definition is_JSONDecodeError (e : exn) : bool :=
  match e with JSONDecodeError _ => true | _ => false end.

(** [except Error] of mysql.connector. *)
Definition is_Error (e : exn) : bool :=
  match e with DbError _ => true | _ => false end.

Definition is_IntegrityError (e : exn) : bool :=
  match e with DbError d => integrity d | _ => false end.

Definition exn_errno (e : exn) : Z :=
  match e with DbError d => errno d | _ => 0%Z end.

(** [str(e)], as interpolated by [f"{e}"]. *)
Definition exn_str (e : exn) : string :=
  match e with
  | OSError m | JSONDecodeError m | AttributeError m | TypeError m
  | KeyError m | ValueError m | PyException m => m
  | DbError d => errmsg d
  | SystemExit c => if (c =? 0)%Z then "0" else "1"
  end.

Inductive result (A : Type) :=
| Ok (a : A)
| Raise (e : exn).
Arguments Ok {A} a.
Arguments Raise {A} e.

Definition nl : string := String "010" "".
Definition dq : string := String "034" "".

(** [sep.join(parts)] *)
Fixpoint join (sep : string) (parts : list string) : string :=
  match parts with
  | [] => ""
  | [p] => p
  | p :: rest => p +:+ sep +:+ join sep rest
  end.

(** [s.replace(old, new)] for a one-character [old], the only form the
    programs use. *)
Fixpoint replace (old : ascii) (new : string) (s : string) : string :=
  match s with
  | "" => ""
  | String c s' =>
      if Ascii.eqb c old then new +:+ replace old new s'
      else String c (replace old new s')
  end.

(** [c in s] for a character. *)
Fixpoint contains (c : ascii) (s : string) : bool :=
  match s with
  | "" => false
  | String c' s' => Ascii.eqb c' c || contains c s'
  end.

(** [not s] is false exactly for the non-empty strings. *)
Definition truthy (s : string) : bool :=
  match s with "" => false | _ => true end.

(** A database cell or a Python [Optional[str]]: [None] is NULL. *)
Definition cell := option string.

(** [str(v)] for a cell, as interpolated by an f-string. *)
Definition cell_str (v : cell) : string :=
  match v with None => "None" | Some s => s end.

End Py.
Export Py.

(** ** Logging *)

Module Logging.

Inductive level := DEBUG | INFO | WARNING | ERROR.

Definition levelno (l : level) : Z :=
  match l with DEBUG => 10 | INFO => 20 | WARNING => 30 | ERROR => 40 end%Z.

Record log_record := LogRecord { lvl : level; message : string }.

(** The level chosen by [setup_logging(verbose, debug)]. *)
Definition configured_level (verbose debug : bool) : level :=
  if debug then DEBUG else if verbose then INFO else WARNING.

(** The records that reach the handler under a given root level. *)
Definition shown (root : level) (records : list log_record) : list log_record :=
  filter (fun r => (levelno root <=? levelno (lvl r))%Z = true) records.

End Logging.
Export Logging.

(** ** JSON documents *)

Module Json.

#[local] Set Warnings "-register-all".

(** What [json.load] returns.  Numbers and booleans are left out: the
    input format has string fields only, and the importer reads no
    other member of an entry. *)
Inductive json :=
| JNull
| JStr (s : string)
| JArr (items : list json)
| JObj (members : list (string * json)).

(** Lookup in a parsed object: for a repeated key the last member wins. *)
Fixpoint dict_lookup (k : string) (members : list (string * json)) : option json :=
  match members with
  | [] => None
  | (k', v) :: rest =>
      match dict_lookup k rest with
      | Some v' => Some v'
      | None => if String.eqb k' k then Some v else None
      end
  end.

Definition type_name (j : json) : string :=
  match j with
  | JNull => "NoneType" | JStr _ => "str" | JArr _ => "list" | JObj _ => "dict"
  end.

(** [v.get(key, default)]: only a dict has [get]. *)
Definition py_get (v : json) (key : string) (default : json) : result json :=
  match v with
  | JObj members => Ok (from_option id default (dict_lookup key members))
  | _ => Raise (AttributeError
           ("'" +:+ type_name v +:+ "' object has no attribute 'get'"))
  end.

Fixpoint chars (s : string) : list json :=
  match s with
  | "" => []
  | String c s' => JStr (String c "") :: chars s'
  end.

(** The keys of a parsed object, each once, in order of first occurrence. *)
Fixpoint keys (members : list (string * json)) (seen : list string) : list json :=
  match members with
  | [] => []
  | (k, _) :: rest =>
      if bool_decide (k ∈ seen) then keys rest seen
      else JStr k :: keys rest (k :: seen)
  end.

(** [for entry in v]: the items of a list, the keys of a dict, the
    characters of a string; [None] is not iterable. *)
Definition py_iter (v : json) : result (list json) :=
  match v with
  | JArr items => Ok items
  | JObj members => Ok (keys members [])
  | JStr s => Ok (chars s)
  | JNull => Raise (TypeError "'NoneType' object is not iterable")
  end.

(** The connector's conversion of a statement parameter: [None] becomes
    NULL, a string is sent as text, a list or dict cannot be converted. *)
Definition to_cell (v : json) : option cell :=
  match v with
  | JNull => Some None
  | JStr s => Some (Some s)
  | JArr _ | JObj _ => None
  end.

(** What opening and parsing an input path yields. *)
Inductive file_read :=
| Unopenable (msg : string)     (* open() raises OSError *)
| NotJson (msg : string)        (* json.load raises JSONDecodeError *)
| Document (j : json).

End Json.
Export Json.

(** ** The database engine

    The MySQL/MariaDB server is an external collaborator.  Its table is
    modelled from the persisted schema: columns [song] and [artist] and
    a uniqueness constraint spanning both. *)

Module Engine.

(** A stored row, in column order [(song, artist)]. *)
Definition row : Type := cell * cell.

Inductive db_op :=
| OpInsert (r : row)
| OpSelect
| OpCommit
| OpRollback.

(** The server and the client session on it. *)
Record database := Database {
  committed : list row;             (* the persisted relation *)
  pending : list row;               (* rows of the open transaction *)
  result_set : list (cell * cell);  (* rows waiting for fetchall() *)
  trace : list db_op;               (* the statements received so far *)
  connected : bool
}.

(** What this session sees: committed rows and its own pending rows. *)
Definition visible (d : database) : list row := committed d ++ pending d.

(** Modelled from the spec: the uniqueness constraint of table [hot100],
    which is declared outside the source files: no two stored rows may
    share both fields. *)
Definition violates_unique (r : row) (rows : list row) : bool :=
  bool_decide (r ∈ rows).

Definition duplicate_entry : mysql_error :=
  {| integrity := true; errno := 1062;
     errmsg := "1062 (23000): Duplicate entry" |}.

Definition received (op : db_op) (d : database) : database :=
  {| committed := committed d; pending := pending d;
     result_set := result_set d; trace := trace d ++ [op];
     connected := connected d |}.

(** The faults the server raises on its own account (lost connection,
    lock timeout, a column constraint, ...) are an input of the model:
    [faults n op] is the error raised when statement [op] arrives as the
    [n]-th statement of the session, if any. *)
Definition fault_plan := nat -> db_op -> option mysql_error.

(** [INSERT INTO hot100 (song, artist) VALUES (%s, %s)] *)
Definition insert (faults : fault_plan) (r : row) (d : database)
  : result unit * database :=
  let d' := received (OpInsert r) d in
  match faults (length (trace d)) (OpInsert r) with
  | Some e => (Raise (DbError e), d')
  | None =>
      if violates_unique r (visible d) then (Raise (DbError duplicate_entry), d')
      else (Ok tt,
            {| committed := committed d'; pending := pending d' ++ [r];
               result_set := result_set d'; trace := trace d';
               connected := connected d' |})
  end.

(** [connection.commit()] *)
Definition commit (faults : fault_plan) (d : database) : result unit * database :=
  let d' := received OpCommit d in
  match faults (length (trace d)) OpCommit with
  | Some e => (Raise (DbError e), d')
  | None =>
      (Ok tt,
       {| committed := committed d' ++ pending d'; pending := [];
          result_set := result_set d'; trace := trace d';
          connected := connected d' |})
  end.

(** [connection.rollback()] *)
Definition rollback (faults : fault_plan) (d : database) : result unit * database :=
  let d' := received OpRollback d in
  match faults (length (trace d)) OpRollback with
  | Some e => (Raise (DbError e), d')
  | None =>
      (Ok tt,
       {| committed := committed d'; pending := [];
          result_set := result_set d'; trace := trace d';
          connected := connected d' |})
  end.

(** [connection.close()]: the server discards the open transaction. *)
Definition close (d : database) : database :=
  {| committed := committed d; pending := [];
     result_set := []; trace := trace d; connected := false |}.

(** Modelled from the spec: [ORDER BY artist, song], lexicographic by
    artist and then by song.  The collation is outside the source files;
    strings compare bytewise and NULL sorts before every string. *)
Definition cell_le (a b : cell) : Prop :=
  match a, b with
  | None, _ => True
  | Some _, None => False
  | Some x, Some y => String.le x y
  end.

#[global] Instance cell_le_dec : RelDecision cell_le.
Proof. intros [x|] [y|]; simpl; apply _. Defined.

(** On result rows [(artist, song)]. *)
Definition order_le (x y : cell * cell) : Prop :=
  cell_le (fst x) (fst y) /\ (fst x = fst y -> cell_le (snd x) (snd y)).

#[global] Instance order_le_dec : RelDecision order_le.
Proof. intros x y. unfold order_le. apply _. Defined.

(** [SELECT artist, song FROM hot100 ORDER BY artist, song] *)
Definition select_ordered (rows : list row) : list (cell * cell) :=
  merge_sort order_le (map (fun r : row => (snd r, fst r)) rows).

Definition select (faults : fault_plan) (d : database) : result unit * database :=
  let d' := received OpSelect d in
  match faults (length (trace d)) OpSelect with
  | Some e => (Raise (DbError e), d')
  | None =>
      (Ok tt,
       {| committed := committed d'; pending := pending d';
          result_set := select_ordered (visible d); trace := trace d';
          connected := connected d' |})
  end.

End Engine.
Export Engine.

(** ** Process state and the monad of Python statements *)

Module Proc.

(** The part of the outside world the programs read. *)
Record world := World {
  isdir : string -> bool;                  (* os.path.isdir *)
  glob_json : string -> list string;       (* glob.glob(join(dir, '*.json')) *)
  read_file : string -> file_read;         (* open + json.load *)
  connect_fault : option mysql_error;      (* mysql.connector.connect fails *)
  faults : fault_plan;                     (* faults of later statements *)
  write_fault : string -> option string;   (* write_text raises OSError *)
  absolute : string -> string              (* Path.absolute() *)
}.

Record state := State {
  db : database;
  root_level : level;              (* set by logging.basicConfig *)
  log : list log_record;           (* every logging call, in order *)
  disk : gmap string string        (* output files: path to text *)
}.

Definition set_db (d : database) (st : state) : state :=
  {| db := d; root_level := root_level st; log := log st; disk := disk st |}.

Definition add_log (r : log_record) (st : state) : state :=
  {| db := db st; root_level := root_level st; log := log st ++ [r];
     disk := disk st |}.

Definition add_logs (recs : list log_record) (st : state) : state :=
  {| db := db st; root_level := root_level st; log := log st ++ recs;
     disk := disk st |}.

Definition M (A : Type) : Type := state -> result A * state.

Definition ret {A} (a : A) : M A := fun st => (Ok a, st).

Definition raise {A} (e : exn) : M A := fun st => (Raise e, st).

Definition bind {A B} (m : M A) (k : A -> M B) : M B := fun st =>
  match m st with
  | (Ok a, st') => k a st'
  | (Raise e, st') => (Raise e, st')
  end.

#[global] Instance M_ret : MRet M := fun A a => ret a.
#[global] Instance M_bind : MBind M := fun A B k m => bind m k.

Definition lift {A} (r : result A) : M A := fun st => (r, st).

(** [try: body / except ...: handler]; a handler re-raises what its
    [except] clauses do not match. *)
Definition try_except {A} (body : M A) (handler : exn -> M A) : M A := fun st =>
  match body st with
  | (Ok a, st') => (Ok a, st')
  | (Raise e, st') => handler e st'
  end.

(** [try: body / finally: final] *)
Definition try_finally {A} (body : M A) (final : M unit) : M A := fun st =>
  match body st with
  | (r, st') =>
      match final st' with
      | (Ok _, st'') => (r, st'')
      | (Raise e, st'') => (Raise e, st'')
      end
  end.

Definition on_db {A} (f : database -> result A * database) : M A := fun st =>
  match f (db st) with
  | (r, d) => (r, set_db d st)
  end.

Definition logging_log (l : level) (msg : string) : M unit := fun st =>
  (Ok tt, add_log (LogRecord l msg) st).

Definition logging_debug (msg : string) : M unit := logging_log DEBUG msg.
Definition logging_info (msg : string) : M unit := logging_log INFO msg.
Definition logging_error (msg : string) : M unit := logging_log ERROR msg.

(** [setup_logging(verbose, debug)] *)
Definition setup_logging (verbose debug : bool) : M unit := fun st =>
  (Ok tt,
   {| db := db st; root_level := configured_level verbose debug;
      log := log st; disk := disk st |}).

(** [get_db_connection(...)]: connect or log and [sys.exit(1)]. *)
Definition get_db_connection (w : world) : M unit :=
  match connect_fault w with
  | None =>
      on_db (fun d => (Ok tt,
        {| committed := committed d; pending := [];
           result_set := []; trace := trace d; connected := true |}));;
      logging_info "Successfully connected to the database"
  | Some e =>
      logging_error ("Error connecting to database: " +:+ errmsg e);;
      raise (SystemExit 1)
  end.

(** The exit status of the process running [main]. *)
Definition exit_status {A} (r : result A) : Z :=
  match r with
  | Ok _ => 0
  | Raise (SystemExit c) => c
  | Raise _ => 1
  end.

(** The process starts with the persisted relation, the default log
    level and an output disk. *)
Definition boot (relation : list row) (files : gmap string string) : state :=
  {| db := {| committed := relation; pending := []; result_set := [];
              trace := []; connected := false |};
     root_level := WARNING; log := []; disk := files |}.

End Proc.
Export Proc.


(** ** The importer: [billboard_import.py] *)

Module Importer.

Record args := Args {
  files : list string;
  verbose : bool;
  debug : bool
}.

(** [str(v)] of a field value.  The repr of a list or dict is
    abbreviated: no log line interpolates one, because the connector
    rejects such a parameter before the server answers. *)
Definition py_str (v : json) : string :=
  match v with
  | JNull => "None"
  | JStr s => s
  | JArr _ => "[...]"
  | JObj _ => "{...}"
  end.

(** Raised by the connector for a parameter it cannot convert; the
    statement never reaches the server. *)
Definition conversion_error : mysql_error :=
  {| integrity := false; errno := -1;
     errmsg := "Failed processing format-parameters" |}.

(** [cursor.execute("INSERT INTO hot100 (song, artist) VALUES (%s, %s)",
    (song, artist))] *)
Definition execute_insert (w : world) (song artist : json) : M unit :=
  match to_cell song, to_cell artist with
  | Some s, Some a => on_db (insert (faults w) (s, a))
  | _, _ => raise (DbError conversion_error)
  end.

(** The body of the [for] loop: the inner [try] with its two handlers. *)
Definition insert_entry (w : world) (entry : json) : M unit :=
  try_except
    (song ← lift (py_get entry "song" JNull);
     artist ← lift (py_get entry "artist" JNull);
     execute_insert w song artist;;
     logging_debug ("Inserted: " +:+ py_str song +:+ " - " +:+ py_str artist))
    (fun e =>
       if is_IntegrityError e then
         if (exn_errno e =? 1062)%Z then
           song ← lift (py_get entry "song" JNull);
           artist ← lift (py_get entry "artist" JNull);
           logging_debug
             ("Duplicate entry skipped: " +:+ py_str song +:+ " - " +:+ py_str artist)
         else logging_error ("Integrity error: " +:+ exn_str e)
       else if is_Error e then
         logging_error ("Error inserting record: " +:+ exn_str e)
       else raise e).

Fixpoint insert_entries (w : world) (entries : list json) : M unit :=
  match entries with
  | [] => mret tt
  | entry :: rest => insert_entry w entry;; insert_entries w rest
  end.

(** [open(filepath)] and [json.load(file)] *)
Definition load (w : world) (filepath : string) : M json :=
  match read_file w filepath with
  | Unopenable msg => raise (OSError msg)
  | NotJson msg => raise (JSONDecodeError msg)
  | Document j => mret j
  end.

Definition process_json_file (w : world) (filepath : string) : M unit :=
  try_except
    (data ← load w filepath;
     field ← lift (py_get data "data" (JArr []));
     entries ← lift (py_iter field);
     insert_entries w entries)
    (fun e =>
       if is_JSONDecodeError e then
         logging_error
           ("Error parsing JSON file " +:+ filepath +:+ ": " +:+ exn_str e)
       else if is_Exception e then
         logging_error
           ("Error processing file " +:+ filepath +:+ ": " +:+ exn_str e)
       else raise e).

(** The expansion of the positional arguments into [json_files]. *)
Definition expand (w : world) (file_args : list string) : list string :=
  flat_map (fun a => if isdir w a then glob_json w a else [a]) file_args.

(** The [for json_file in json_files] loop. *)
Fixpoint process_files (w : world) (json_files : list string) : M unit :=
  match json_files with
  | [] => mret tt
  | json_file :: rest =>
      logging_info ("Processing file: " +:+ json_file);;
      process_json_file w json_file;;
      on_db (commit (faults w));;
      process_files w rest
  end.

Definition main (w : world) (a : args) : M unit :=
  setup_logging (verbose a) (debug a);;
  get_db_connection w;;
  try_finally
    (try_except
       (process_files w (expand w (files a));;
        logging_info "Processing completed successfully")
       (fun e =>
          if is_Exception e then
            logging_error ("An error occurred: " +:+ exn_str e);;
            on_db (rollback (faults w))
          else raise e))
    (on_db (fun d => (Ok tt, close d))).

(** One run of the importer against a persisted relation: the exit
    status and the final state. *)
Definition run (w : world) (a : args) (relation : list row) : Z * state :=
  match main w a (boot relation ∅) with
  | (r, st) => (exit_status r, st)
  end.

End Importer.

(** ** The exporter: [export_to_html.py] *)

Module Exporter.

Record args := Args {
  output : string;
  verbose : bool;
  debug : bool
}.

Record site_info := SiteInfo {
  site : string;
  icon : string;
  name : string
}.

Definition SEARCH_SITES : list (string * site_info) :=
  [ ("spotify",
     {| site := "open.spotify.com"; icon := "./spotify.png"; name := "Spotify" |});
    ("apple_music",
     {| site := "music.apple.com"; icon := "./applemusic.png";
        name := "Apple Music" |}) ].

(** [SEARCH_SITES[key]] *)
Fixpoint sites_get (key : string) (sites : list (string * site_info))
  : result site_info :=
  match sites with
  | [] => Raise (KeyError ("'" +:+ key +:+ "'"))
  | (k, info) :: rest => if String.eqb k key then Ok info else sites_get key rest
  end.

(** The characters [urllib.parse.quote] never escapes: ASCII letters,
    digits and [_.-~]. *)
Definition always_safe (c : ascii) : bool :=
  let n := N_of_ascii c in
  ((65 <=? n) && (n <=? 90) || (97 <=? n) && (n <=? 122)
   || (48 <=? n) && (n <=? 57) || contains c "_.-~")%N.

Definition hex_digit (n : N) : ascii :=
  match n with
  | 0 => "0" | 1 => "1" | 2 => "2" | 3 => "3" | 4 => "4" | 5 => "5"
  | 6 => "6" | 7 => "7" | 8 => "8" | 9 => "9" | 10 => "A" | 11 => "B"
  | 12 => "C" | 13 => "D" | 14 => "E" | _ => "F"
  end%N%char.

(** ['%{:02X}'.format(byte)] *)
Definition percent (c : ascii) : string :=
  let n := N_of_ascii c in
  String "%" (String (hex_digit (n / 16)) (String (hex_digit (n mod 16)) "")).

(** [urllib.parse.quote(s, safe)] on the UTF-8 bytes of [s]. *)
Fixpoint quote (safe : string) (s : string) : string :=
  match s with
  | "" => ""
  | String c s' =>
      (if always_safe c || contains c safe then String c "" else percent c)
        +:+ quote safe s'
  end.

(** [urllib.parse.quote_plus(s)] *)
Definition quote_plus (s : string) : string :=
  if contains " " s then replace " " "+" (quote " " s) else quote "" s.

(** [urllib.parse.urlencode(params)] for string keys and values. *)
Definition urlencode (params : list (string * string)) : string :=
  join "&" (map (fun kv => quote_plus (fst kv) +:+ "=" +:+ quote_plus (snd kv))
                params).

Definition create_search_url (info : site_info) (query : string) : string :=
  let base_url := "https://www.google.com/search" in
  let search_query := query +:+ " site:" +:+ site info in
  let params := [("q", search_query)] in
  base_url +:+ "?" +:+ urlencode params.

Definition get_html_template : string :=
  join nl
    [ "";
      "<!DOCTYPE html>";
      "<html>";
      "<head>";
      "    <meta charset=" +:+ dq +:+ "UTF-8" +:+ dq +:+ ">";
      "    <title>Billboard Hot 100 Search Links</title>";
      "    <style>";
      "        body {{";
      "            font-family: 'Segoe UI', Tahoma, Geneva, Verdana, sans-serif;";
      "            margin: 20px;";
      "            background-color: #f5f5f5;";
      "        }}";
      "        .container {{";
      "            max-width: 1200px;";
      "            margin: 0 auto;";
      "        }}";
      "        table {{";
      "            width: 100%;";
      "            border-collapse: collapse;";
      "            background-color: white;";
      "            box-shadow: 0 1px 3px rgba(0,0,0,0.2);";
      "            border-radius: 8px;";
      "            overflow: hidden;";
      "        }}";
      "        th {{";
      "            background-color: #4a90e2;";
      "            color: white;";
      "            padding: 12px;";
      "            text-align: left;";
      "        }}";
      "        td {{";
      "            padding: 12px;";
      "            border-bottom: 1px solid #ddd;";
      "        }}";
      "        tr:hover {{";
      "            background-color: #f8f9fa;";
      "        }}";
      "        .search-icon {{";
      "            width: 16px;";
      "            height: 16px;";
      "            vertical-align: middle;";
      "        }}";
      "        a {{";
      "            color: #4a90e2;";
      "            text-decoration: none;";
      "        }}";
      "        a:hover {{";
      "            text-decoration: underline;";
      "        }}";
      "    </style>";
      "</head>";
      "<body>";
      "    <div class=" +:+ dq +:+ "container" +:+ dq +:+ ">";
      "        <h1>Billboard Hot 100 Search Links</h1>";
      "        <table>";
      "            <thead>";
      "                <tr>";
      "                    <th>Artist</th>";
      "                    <th>Song</th>";
      "                    <th>Apple Music</th>";
      "                    <th>Spotify</th>";
      "                </tr>";
      "            </thead>";
      "            <tbody>";
      "                {table_rows}";
      "            </tbody>";
      "        </table>";
      "    </div>";
      "</body>";
      "</html>";
      "" ].

(** The subset of [str.format] the template uses: doubled braces and
    named replacement fields without conversion or format spec.
    [field] is the name being read inside a replacement field. *)
Fixpoint format_from (field : option string) (fields : list (string * string))
  (template : string) : result string :=
  match template with
  | "" =>
      match field with
      | None => Ok ""
      | Some _ => Raise (ValueError "expected '}' before end of string")
      end
  | String c rest =>
      match field with
      | Some fname =>
          if Ascii.eqb c "}" then
            match list_find (fun kv => fst kv = fname) fields with
            | Some (_, (_, value)) =>
                match format_from None fields rest with
                | Ok out => Ok (value +:+ out)
                | Raise e => Raise e
                end
            | None => Raise (KeyError ("'" +:+ fname +:+ "'"))
            end
          else format_from (Some (fname +:+ String c "")) fields rest
      | None =>
          if Ascii.eqb c "{" then
            match rest with
            | String c' rest' =>
                if Ascii.eqb c' "{" then
                  match format_from None fields rest' with
                  | Ok out => Ok (String "{" out)
                  | Raise e => Raise e
                  end
                else format_from (Some "") fields rest
            | "" => Raise (ValueError "Single '{' encountered in format string")
            end
          else if Ascii.eqb c "}" then
            match rest with
            | String c' rest' =>
                if Ascii.eqb c' "}" then
                  match format_from None fields rest' with
                  | Ok out => Ok (String "}" out)
                  | Raise e => Raise e
                  end
                else Raise (ValueError "Single '}' encountered in format string")
            | "" => Raise (ValueError "Single '}' encountered in format string")
            end
          else
            match format_from None fields rest with
            | Ok out => Ok (String c out)
            | Raise e => Raise e
            end
      end
  end.

(** [template.format(name=value, ...)] *)
Definition format (template : string) (fields : list (string * string))
  : result string :=
  format_from None fields template.

(** The three chained [replace] calls of [create_table_row]. *)
Definition escape (s : string) : string :=
  replace ">" "&gt;" (replace "<" "&lt;" (replace "&" "&amp;" s)).

(** The same on a fetched value: [None] has no [replace]. *)
Definition escape_value (v : cell) : result string :=
  match v with
  | Some s => Ok (escape s)
  | None => Raise (AttributeError "'NoneType' object has no attribute 'replace'")
  end.

(** The cell holding the search link of one site. *)
Definition link_cell (url : string) (info : site_info) : string :=
  "<td><a href=" +:+ dq +:+ url +:+ dq +:+ " target=" +:+ dq +:+ "_blank" +:+ dq
  +:+ "><img src=" +:+ dq +:+ icon info +:+ dq +:+ " class=" +:+ dq
  +:+ "search-icon" +:+ dq +:+ " alt=" +:+ dq +:+ name info +:+ dq
  +:+ "></a></td>".

(** The list [parts] at the [return] of [create_table_row], from the
    escaped values and the unescaped query. *)
Definition row_parts (artist song search_query : string) : result (list string) :=
  match sites_get "apple_music" SEARCH_SITES with
  | Raise e => Raise e
  | Ok apple =>
      let apple_url := create_search_url apple search_query in
      match sites_get "spotify" SEARCH_SITES with
      | Raise e => Raise e
      | Ok spotify =>
          let spotify_url := create_search_url spotify search_query in
          Ok [ "<tr>";
               "<td>" +:+ artist +:+ "</td>";
               "<td>" +:+ song +:+ "</td>";
               link_cell apple_url apple;
               link_cell spotify_url spotify;
               "</tr>" ]
      end
  end.

(** The handler of [create_table_row]: [artist] and [song] are the
    variables as they stand when the exception is raised. *)
Definition row_failed (artist song : cell) (e : exn) : M string :=
  if is_Exception e then
    logging_error ("Error creating table row for " +:+ cell_str artist +:+ " - "
                   +:+ cell_str song +:+ ": " +:+ exn_str e);;
    mret ""
  else raise e.

Definition create_table_row (artist song : cell) : M string :=
  let search_query := cell_str artist +:+ " " +:+ cell_str song in
  match escape_value artist with
  | Raise e => row_failed artist song e
  | Ok artist' =>
      match escape_value song with
      | Raise e => row_failed (Some artist') song e
      | Ok song' =>
          match row_parts artist' song' search_query with
          | Raise e => row_failed (Some artist') (Some song') e
          | Ok parts => mret (join nl parts)
          end
      end
  end.

(** [cursor.fetchall()] *)
Definition fetchall : M (list (cell * cell)) :=
  on_db (fun d =>
    (Ok (result_set d),
     {| committed := committed d; pending := pending d; result_set := [];
        trace := trace d; connected := connected d |})).

(** The loop over the fetched rows: the non-empty results, in order. *)
Fixpoint render_rows (rows : list (cell * cell)) : M (list string) :=
  match rows with
  | [] => mret []
  | (artist, song) :: rest =>
      row ← create_table_row artist song;
      others ← render_rows rest;
      mret (if truthy row then row :: others else others)
  end.

(** [Path(path).write_text(text, encoding='utf-8')] *)
Definition write_text (w : world) (path text : string) : M unit := fun st =>
  match write_fault w path with
  | Some msg => (Raise (OSError msg), st)
  | None =>
      (Ok tt,
       {| db := db st; root_level := root_level st; log := log st;
          disk := <[path := text]> (disk st) |})
  end.

(** [traceback.format_exc()], without the frames. *)
Definition format_exc (e : exn) : string :=
  "Traceback (most recent call last):" +:+ nl +:+ exn_str e.

Definition main (w : world) (a : args) : M unit :=
  setup_logging (verbose a) (debug a);;
  get_db_connection w;;
  try_finally
    (try_except
       (on_db (select (faults w));;
        fetched ← fetchall;
        table_rows ← render_rows fetched;
        (if bool_decide (table_rows = []) then
           raise (PyException "No valid rows were generated")
         else mret tt);;
        let template := get_html_template in
        (if truthy template then mret tt
         else raise (PyException "HTML template is empty"));;
        html_content ←
          try_except
            (lift (format template [("table_rows", join nl table_rows)]))
            (fun e =>
               if is_Exception e then
                 logging_error ("Error formatting HTML template: " +:+ exn_str e);;
                 logging_debug ("Number of rows: " +:+ pretty (length table_rows));;
                 logging_debug ("First row sample: "
                                +:+ from_option id "No rows" (head table_rows));;
                 raise e
               else raise e);
        write_text w (output a) html_content;;
        logging_info ("HTML file has been generated: " +:+ absolute w (output a)))
       (fun e =>
          if is_Error e then
            logging_error ("Database error: " +:+ exn_str e);;
            raise (SystemExit 1)
          else if is_Exception e then
            logging_error ("An error occurred: " +:+ exn_str e);;
            (if debug a then logging_debug (format_exc e) else mret tt);;
            raise (SystemExit 1)
          else raise e))
    (on_db (fun d => (Ok tt, close d))).

(** One run of the exporter against a persisted relation and an output
    disk: the exit status and the final state. *)
Definition run (w : world) (a : args) (relation : list row)
  (files : gmap string string) : Z * state :=
  match main w a (boot relation files) with
  | (r, st) => (exit_status r, st)
  end.

End Exporter.

(** ** Pure views of the two programs, used to state their properties *)

Module Spec.

(** The rows the importer sends to the server for the entries of one
    [data] sequence: the (song, artist) pair of each object whose two
    fields are a string or null, up to the first entry that is not an
    object. *)
Fixpoint entry_rows (entries : list json) : list row :=
  match entries with
  | [] => []
  | JObj members :: rest =>
      match to_cell (from_option id JNull (dict_lookup "song" members)),
            to_cell (from_option id JNull (dict_lookup "artist" members)) with
      | Some s, Some a => (s, a) :: entry_rows rest
      | _, _ => entry_rows rest
      end
  | _ :: _ => []
  end.

(** A field of an entry as the connector sends it, when it can. *)
Definition field_cell (key : string) (entry : json) : option cell :=
  match entry with
  | JObj members => to_cell (from_option id JNull (dict_lookup key members))
  | _ => None
  end.

(** An entry of the input format: an object whose [song] and [artist],
    where present, are strings (or null). *)
Definition chart_entry (entry : json) : Prop :=
  is_Some (field_cell "song" entry) /\ is_Some (field_cell "artist" entry).

(** Its (song, artist) pair; an absent field is NULL. *)
Definition entry_pair (entry : json) : row :=
  (from_option id None (field_cell "song" entry),
   from_option id None (field_cell "artist" entry)).

Definition document_rows (j : json) : list row :=
  match py_get j "data" (JArr []) with
  | Ok field =>
      match py_iter field with
      | Ok entries => entry_rows entries
      | Raise _ => []
      end
  | Raise _ => []
  end.

(** The pairs encountered in one input path. *)
Definition file_rows (w : world) (filepath : string) : list row :=
  match read_file w filepath with
  | Document j => document_rows j
  | Unopenable _ | NotJson _ => []
  end.

(** The pairs encountered in a list of input paths. *)
Definition encountered (w : world) (json_files : list string) : list row :=
  flat_map (file_rows w) json_files.

(** The session after a sequence of INSERT statements. *)
Definition run_inserts (fp : fault_plan) (rows : list row) (d : database)
  : database :=
  fold_left (fun d r => snd (insert fp r d)) rows d.

(** The session after the statements of a list of files, each followed
    by its commit; it stops at the first commit that raises. *)
Fixpoint run_files (fp : fault_plan) (batches : list (list row)) (d : database)
  : result unit * database :=
  match batches with
  | [] => (Ok tt, d)
  | rows :: rest =>
      match commit fp (run_inserts fp rows d) with
      | (Ok _, d') => run_files fp rest d'
      | (Raise e, d') => (Raise e, d')
      end
  end.

(** The session of one importer run on a persisted relation: connect,
    the files, a rollback if a commit raised, close. *)
Definition import_session (fp : fault_plan) (batches : list (list row))
  (relation : list row) : result unit * database :=
  let d0 := {| committed := relation; pending := []; result_set := [];
               trace := []; connected := true |} in
  match run_files fp batches d0 with
  | (Ok _, d) => (Ok tt, close d)
  | (Raise e, d) =>
      match rollback fp d with
      | (r, d') => (r, close d')
      end
  end.

(** A relation after an insert attempt under its uniqueness constraint. *)
Definition store (rows : list row) (r : row) : list row :=
  if bool_decide (r ∈ rows) then rows else rows ++ [r].

(** The statements one file contributes to the session. *)
Definition file_ops (rows : list row) : list db_op :=
  map OpInsert rows ++ [OpCommit].

(** The log records that show a file was handled. *)
Definition processing_record (filepath : string) : log_record :=
  LogRecord INFO ("Processing file: " +:+ filepath).

Definition parse_error_record (filepath msg : string) : log_record :=
  LogRecord ERROR ("Error parsing JSON file " +:+ filepath +:+ ": " +:+ msg).

Definition file_error_record (filepath msg : string) : log_record :=
  LogRecord ERROR ("Error processing file " +:+ filepath +:+ ": " +:+ msg).

(** [recs] shows every file of [json_files] being taken up, and the
    fault of each one that could not be read. *)
Definition accounts_for (w : world) (json_files : list string)
  (recs : list log_record) : Prop :=
  forall f, f ∈ json_files ->
    processing_record f ∈ recs
    /\ (forall msg, read_file w f = NotJson msg -> parse_error_record f msg ∈ recs)
    /\ (forall msg, read_file w f = Unopenable msg -> file_error_record f msg ∈ recs).

(** The replacement of one character in a table cell. *)
Definition entity (c : ascii) : string :=
  if Ascii.eqb c "&" then "&amp;"
  else if Ascii.eqb c "<" then "&lt;"
  else if Ascii.eqb c ">" then "&gt;"
  else String c "".

(** The text of a table cell: each character replaced on its own. *)
Fixpoint escape_each (s : string) : string :=
  match s with
  | "" => ""
  | String c s' => entity c +:+ escape_each s'
  end.

(** The URL-encoding of one byte of a query (form encoding). *)
Definition encode_byte (c : ascii) : string :=
  if Exporter.always_safe c then String c ""
  else if Ascii.eqb c " " then "+"
  else Exporter.percent c.

Fixpoint encode_query (s : string) : string :=
  match s with
  | "" => ""
  | String c s' => encode_byte c +:+ encode_query s'
  end.

(** The position of a character in a string. *)
Fixpoint position (c : ascii) (s : string) : option N :=
  match s with
  | "" => None
  | String x s' =>
      if Ascii.eqb x c then Some 0%N
      else match position c s' with
           | Some n => Some (N.succ n)
           | None => None
           end
  end.

(** The value of an upper-case hexadecimal digit. *)
Definition hex_value (c : ascii) : option N := position c "0123456789ABCDEF".

(** The decoding a search engine applies to the [q] parameter: [+] is a
    space and [%XY] is the byte with hexadecimal code [XY]. *)
Fixpoint decode_query (s : string) : string :=
  match s with
  | "" => ""
  | String c rest =>
      if Ascii.eqb c "+" then String " " (decode_query rest)
      else if Ascii.eqb c "%" then
        match rest with
        | String h (String l rest') =>
            match hex_value h, hex_value l with
            | Some x, Some y =>
                String (ascii_of_N (16 * x + y)) (decode_query rest')
            | _, _ => String c (decode_query rest)
            end
        | _ => String c (decode_query rest)
        end
      else String c (decode_query rest)
  end.

(** The number of places of [s] at which [pat] starts. *)
Fixpoint occurrences (pat s : string) : nat :=
  match s with
  | "" => 0
  | String _ s' => (if String.prefix pat s then 1 else 0) + occurrences pat s'
  end.

Definition apple_music : Exporter.site_info :=
  {| Exporter.site := "music.apple.com"; Exporter.icon := "./applemusic.png";
     Exporter.name := "Apple Music" |}.

Definition spotify : Exporter.site_info :=
  {| Exporter.site := "open.spotify.com"; Exporter.icon := "./spotify.png";
     Exporter.name := "Spotify" |}.

(** The search URL of a track on one site: the query
    [<artist> <song> site:<domain>], URL-encoded. *)
Definition search_url (domain artist song : string) : string :=
  "https://www.google.com/search?q="
  +:+ encode_query (artist +:+ " " +:+ song +:+ " site:" +:+ domain).

(** The table row of a track. *)
Definition row_html (artist song : string) : string :=
  join nl
    [ "<tr>";
      "<td>" +:+ escape_each artist +:+ "</td>";
      "<td>" +:+ escape_each song +:+ "</td>";
      Exporter.link_cell (search_url "music.apple.com" artist song) apple_music;
      Exporter.link_cell (search_url "open.spotify.com" artist song) spotify;
      "</tr>" ].

(** A fetched row renders when neither value is NULL. *)
Definition renderable (r : cell * cell) : option (string * string) :=
  match r with
  | (Some artist, Some song) => Some (artist, song)
  | _ => None
  end.

(** The tracks of the table, in the order of the query. *)
Definition rendered (relation : list row) : list (string * string) :=
  omap renderable (select_ordered relation).

(** Lexicographic by artist and, for equal artists, by song. *)
Definition artist_then_song (x y : string * string) : Prop :=
  (fst x <> fst y /\ String.le (fst x) (fst y))
  \/ (fst x = fst y /\ String.le (snd x) (snd y)).

(** The document the exporter writes around the joined table rows: the
    text of the template with its doubled braces read as single ones. *)
Definition document (table_rows : string) : string :=
  join nl
    [ "";
      "<!DOCTYPE html>";
      "<html>";
      "<head>";
      "    <meta charset=" +:+ dq +:+ "UTF-8" +:+ dq +:+ ">";
      "    <title>Billboard Hot 100 Search Links</title>";
      "    <style>";
      "        body {";
      "            font-family: 'Segoe UI', Tahoma, Geneva, Verdana, sans-serif;";
      "            margin: 20px;";
      "            background-color: #f5f5f5;";
      "        }";
      "        .container {";
      "            max-width: 1200px;";
      "            margin: 0 auto;";
      "        }";
      "        table {";
      "            width: 100%;";
      "            border-collapse: collapse;";
      "            background-color: white;";
      "            box-shadow: 0 1px 3px rgba(0,0,0,0.2);";
      "            border-radius: 8px;";
      "            overflow: hidden;";
      "        }";
      "        th {";
      "            background-color: #4a90e2;";
      "            color: white;";
      "            padding: 12px;";
      "            text-align: left;";
      "        }";
      "        td {";
      "            padding: 12px;";
      "            border-bottom: 1px solid #ddd;";
      "        }";
      "        tr:hover {";
      "            background-color: #f8f9fa;";
      "        }";
      "        .search-icon {";
      "            width: 16px;";
      "            height: 16px;";
      "            vertical-align: middle;";
      "        }";
      "        a {";
      "            color: #4a90e2;";
      "            text-decoration: none;";
      "        }";
      "        a:hover {";
      "            text-decoration: underline;";
      "        }";
      "    </style>";
      "</head>";
      "<body>";
      "    <div class=" +:+ dq +:+ "container" +:+ dq +:+ ">";
      "        <h1>Billboard Hot 100 Search Links</h1>";
      "        <table>";
      "            <thead>";
      "                <tr>";
      "                    <th>Artist</th>";
      "                    <th>Song</th>";
      "                    <th>Apple Music</th>";
      "                    <th>Spotify</th>";
      "                </tr>";
      "            </thead>";
      "            <tbody>";
      "                " +:+ table_rows;
      "            </tbody>";
      "        </table>";
      "    </div>";
      "</body>";
      "</html>";
      "" ].

(** The server raises nothing on its own account. *)
Definition healthy (fp : fault_plan) : Prop := forall n op, fp n op = None.

(** An object, the only kind of value with a [get]. *)
Definition is_object (j : json) : Prop := exists members, j = JObj members.

(** The text of the [AttributeError] raised by [v.get] on another value. *)
Definition no_get (v : json) : string :=
  "'" +:+ type_name v +:+ "' object has no attribute 'get'".

(** The record the inner handlers of [process_json_file] leave for a
    server error on the INSERT of [(song, artist)]. *)
Definition insert_error_record (e : mysql_error) (song artist : cell)
  : log_record :=
  if integrity e then
    if (errno e =? 1062)%Z then
      LogRecord DEBUG ("Duplicate entry skipped: " +:+ cell_str song +:+ " - "
                       +:+ cell_str artist)
    else LogRecord ERROR ("Integrity error: " +:+ errmsg e)
  else LogRecord ERROR ("Error inserting record: " +:+ errmsg e).

(** The number of occurrences of a character. *)
Fixpoint count_char (c : ascii) (s : string) : nat :=
  match s with
  | "" => 0
  | String x s' => (if Ascii.eqb x c then 1 else 0) + count_char c s'
  end.

(** Every character of the string satisfies [p]. *)
Fixpoint all_chars (p : ascii -> bool) (s : string) : bool :=
  match s with
  | "" => true
  | String x s' => p x && all_chars p s'
  end.

(** The reading of escaped cell text: [&amp;], [&lt;] and [&gt;] stand
    for [&], [<] and [>].  [skip] counts the characters of an entity
    still to be passed over. *)
Fixpoint starts_with (pat s : string) : bool :=
  match pat with
  | "" => true
  | String a pat' =>
      match s with
      | "" => false
      | String b s' => Ascii.eqb a b && starts_with pat' s'
      end
  end.

Fixpoint unescape_from (skip : nat) (s : string) : string :=
  match s with
  | "" => ""
  | String c rest =>
      match skip with
      | S k => unescape_from k rest
      | O =>
          if starts_with "&amp;" s then String "&" (unescape_from 4 rest)
          else if starts_with "&lt;" s then String "<" (unescape_from 3 rest)
          else if starts_with "&gt;" s then String ">" (unescape_from 3 rest)
          else String c (unescape_from 0 rest)
      end
  end.

Definition unescape (s : string) : string := unescape_from 0 s.

(** A file of the input format: an object whose [data] is a sequence
    of chart entries. *)
Definition chart_file (w : world) (filepath : string) : Prop :=
  exists members entries,
    read_file w filepath = Document (JObj members)
    /\ dict_lookup "data" members = Some (JArr entries)
    /\ Forall chart_entry entries.

#[global] Instance level_eq_dec : EqDecision level.
Proof. solve_decision. Defined.

(** A record below warning level. *)
Definition routine (r : log_record) : Prop := lvl r = DEBUG \/ lvl r = INFO.

(** The text of the document before and after the table rows. *)
Definition page_head : string := String.substring 0 1581 (document "").
Definition page_tail : string := String.substring 1581 66 (document "").

(** The characters a search URL is made of. *)
Definition url_char (c : ascii) : bool :=
  Exporter.always_safe c || contains c ":/?=+%".

End Spec.
Export Spec.

(** ** Sample inputs *)

Module Examples.

Definition entry (song artist : string) : json :=
  JObj [("song", JStr song); ("artist", JStr artist)].

Definition chart_a : json :=
  JObj [("data", JArr [ entry "One More Time" "Daft Punk";
                        entry "Dancing Queen" "Abba";
                        entry "One More Time" "Daft Punk" ])].

Definition chart_b : json :=
  JObj [("data", JArr [ entry "Dancing Queen" "Abba";
                        entry "Waterloo" "Abba" ])].

Definition sample_read (path : string) : file_read :=
  if String.eqb path "a.json" then Document chart_a
  else if String.eqb path "b.json" then Document chart_b
  else if String.eqb path "broken.json"
  then NotJson "Expecting value: line 1 column 1 (char 0)"
  else Unopenable "[Errno 2] No such file or directory".

Definition no_faults : fault_plan := fun _ _ => None.

Definition lost_connection : mysql_error :=
  {| integrity := false; errno := 2013;
     errmsg := "2013: Lost connection to MySQL server during query" |}.

(** The seventh statement of the session fails if it is a commit. *)
Definition failing_commit : fault_plan := fun n op =>
  match op with
  | OpCommit => if Nat.eqb n 6 then Some lost_connection else None
  | _ => None
  end.

Definition world_with (fp : fault_plan) : world :=
  {| isdir := fun _ => false; glob_json := fun _ => [];
     read_file := sample_read; connect_fault := None; faults := fp;
     write_fault := fun _ => None; absolute := fun path => path |}.

Definition sample_world : world := world_with no_faults.

Definition import_args (paths : list string) : Importer.args :=
  {| Importer.files := paths; Importer.verbose := false;
     Importer.debug := false |}.

Definition sample_args : Importer.args :=
  import_args ["a.json"; "broken.json"; "missing.json"; "b.json"].

Definition export_args : Exporter.args :=
  {| Exporter.output := "hot100.html"; Exporter.verbose := false;
     Exporter.debug := false |}.

(** Rows [(song, artist)] of the relation. *)
Definition two_tracks : list row :=
  [ (Some "One More Time", Some "Daft Punk");
    (Some "Dancing Queen", Some "Abba") ].

Definition null_rows : list row :=
  [ (None, Some "Abba"); (Some "Waterloo", None) ].

Definition access_denied : mysql_error :=
  {| integrity := false; errno := 1045;
     errmsg := "1045 (28000): Access denied for user" |}.

(** A world in which the connection is refused. *)
Definition refusing_world : world :=
  {| isdir := fun _ => false; glob_json := fun _ => [];
     read_file := sample_read; connect_fault := Some access_denied;
     faults := no_faults; write_fault := fun _ => None;
     absolute := fun path => path |}.

Definition data_too_long : mysql_error :=
  {| integrity := false; errno := 1406;
     errmsg := "1406 (22001): Data too long for column 'song' at row 1" |}.

(** The first statement of the session fails if it is an INSERT. *)
Definition failing_insert : fault_plan := fun n op =>
  match op with
  | OpInsert _ => if Nat.eqb n 0 then Some data_too_long else None
  | _ => None
  end.

(** Every commit and every rollback fails. *)
Definition failing_transactions : fault_plan := fun _ op =>
  match op with
  | OpCommit | OpRollback => Some lost_connection
  | _ => None
  end.

(** Every query fails. *)
Definition failing_select : fault_plan := fun _ op =>
  match op with
  | OpSelect => Some lost_connection
  | _ => None
  end.


(** A [data] sequence with a stray string between two entries. *)
Definition chart_with_stray : json :=
  JObj [("data", JArr [ entry "Waterloo" "Abba"; JStr "stray";
                        entry "Fernando" "Abba" ])].

Definition stray_read (path : string) : file_read :=
  if String.eqb path "stray.json" then Document chart_with_stray
  else if String.eqb path "empty.json" then Document (JObj [])
  else if String.eqb path "list.json" then Document (JArr [])
  else sample_read path.

Definition stray_world : world :=
  {| isdir := fun _ => false; glob_json := fun _ => [];
     read_file := stray_read; connect_fault := None; faults := no_faults;
     write_fault := fun _ => None; absolute := fun path => path |}.

End Examples.

(** * Properties *)

(** ** The monad *)

Ltac munfold :=
  unfold mbind, M_bind, mret, M_ret, bind, ret, raise, lift, try_except,
    try_finally, on_db, logging_debug, logging_info, logging_error,
    logging_log in *.

Ltac each_byte c := destruct c as [[] [] [] [] [] [] [] []].

Lemma add_logs_nil st : set_db (db st) (add_logs [] st) = st.
Proof. destruct st. unfold add_logs, set_db; simpl. by rewrite app_nil_r. Qed.

Lemma state_chain d d' recs recs' st :
  set_db d (add_logs recs (set_db d' (add_logs recs' st)))
  = set_db d (add_logs (recs' ++ recs) st).
Proof. unfold set_db, add_logs; simpl. by rewrite app_assoc. Qed.

(** ** The importer, statement by statement *)

Lemma insert_entry_object w members st :
  exists recs,
    Importer.insert_entry w (JObj members) st
    = (Ok tt,
       set_db (run_inserts (faults w) (entry_rows [JObj members]) (db st))
              (add_logs recs st)).
Proof.
  unfold Importer.insert_entry, Importer.execute_insert. munfold. simpl.
  destruct (to_cell (from_option id JNull (dict_lookup "song" members)))
    as [s|] eqn:Hs;
    [destruct (to_cell (from_option id JNull (dict_lookup "artist" members)))
       as [a|] eqn:Ha|].
  - unfold run_inserts; simpl.
    destruct (insert (faults w) (s, a) (db st)) as [[[]|e] d] eqn:Hins; simpl.
    + by eexists [_].
    + unfold insert in Hins.
      destruct (faults w _ _) as [f|].
      * injection Hins as <- <-. simpl.
        destruct (integrity f); [destruct (errno f =? 1062)%Z|]; by eexists [_].
      * destruct (violates_unique _ _); [|done].
        injection Hins as <- <-. by eexists [_].
  - by eexists [_].
  - by eexists [_].
Qed.

Lemma insert_entry_not_object w entry st :
  (forall members, entry <> JObj members) ->
  exists msg, Importer.insert_entry w entry st = (Raise (AttributeError msg), st).
Proof.
  intros Hno. unfold Importer.insert_entry. munfold.
  destruct entry; simpl; try by eexists. by destruct (Hno members).
Qed.

Lemma run_inserts_app fp rows1 rows2 d :
  run_inserts fp (rows1 ++ rows2) d = run_inserts fp rows2 (run_inserts fp rows1 d).
Proof. apply fold_left_app. Qed.

Lemma entry_rows_object members rest :
  entry_rows (JObj members :: rest) = entry_rows [JObj members] ++ entry_rows rest.
Proof.
  simpl. by repeat case_match.
Qed.

(** The loop over the entries either completes or stops at the first
    entry that is not an object; the statements sent are those of
    [entry_rows] in both cases. *)
Lemma insert_entries_spec w entries st :
  exists r recs,
    Importer.insert_entries w entries st
    = (r, set_db (run_inserts (faults w) (entry_rows entries) (db st))
                 (add_logs recs st))
    /\ (r = Ok tt \/ exists msg, r = Raise (AttributeError msg)).
Proof.
  revert st. induction entries as [|entry rest IH]; intros st.
  - exists (Ok tt), []. split; [|by left]. simpl. munfold.
    by rewrite add_logs_nil.
  - assert (Hcase : (exists members, entry = JObj members)
                    \/ (forall members, entry <> JObj members)).
    { destruct entry; eauto; right; congruence. }
    destruct Hcase as [[members ->]|Hno].
    + destruct (insert_entry_object w members st) as [recs1 H1].
      simpl Importer.insert_entries. munfold. rewrite H1.
      destruct (IH (set_db (run_inserts (faults w) (entry_rows [JObj members])
                              (db st)) (add_logs recs1 st)))
        as (r & recs2 & H2 & Hr).
      rewrite H2. exists r, (recs1 ++ recs2). split; [|done].
      rewrite (entry_rows_object members rest), run_inserts_app. f_equal.
      apply state_chain.
    + destruct (insert_entry_not_object w entry st Hno) as [msg H1].
      simpl Importer.insert_entries. munfold. rewrite H1.
      exists (Raise (AttributeError msg)), []. split; [|eauto].
      replace (entry_rows (entry :: rest)) with (@nil row).
      * simpl. by rewrite add_logs_nil.
      * destruct entry; try done. by destruct (Hno members).
Qed.

Lemma process_json_file_db w filepath st :
  exists recs,
    Importer.process_json_file w filepath st
    = (Ok tt,
       set_db (run_inserts (faults w) (file_rows w filepath) (db st))
              (add_logs recs st)).
Proof.
  unfold Importer.process_json_file, Importer.load, file_rows, document_rows.
  munfold. destruct (read_file w filepath) as [msg|msg|j]; simpl.
  - by eexists [_].
  - by eexists [_].
  - destruct (py_get j "data" (JArr [])) as [field|e] eqn:Hget; simpl.
    + destruct (py_iter field) as [entries|e] eqn:Hiter; simpl.
      * destruct (insert_entries_spec w entries st) as (r & recs & -> & Hr).
        destruct Hr as [->|[msg ->]]; simpl.
        -- by exists recs.
        -- exists (recs ++ [LogRecord ERROR
                     ("Error processing file " +:+ filepath +:+ ": " +:+ msg)]).
           unfold add_log, set_db, add_logs. simpl. by rewrite app_assoc.
      * destruct field; simplify_eq/=. by eexists [_].
    + destruct j; simplify_eq/=; by eexists [_].
Qed.

(** A file that does not parse costs one error record and nothing else. *)
Lemma process_json_file_not_json w filepath msg st :
  read_file w filepath = NotJson msg ->
  Importer.process_json_file w filepath st
  = (Ok tt,
     add_log (LogRecord ERROR
       ("Error parsing JSON file " +:+ filepath +:+ ": " +:+ msg)) st).
Proof.
  intros H. unfold Importer.process_json_file, Importer.load. munfold.
  by rewrite H.
Qed.

(** So does a path that cannot be opened. *)
Lemma process_json_file_unopenable w filepath msg st :
  read_file w filepath = Unopenable msg ->
  Importer.process_json_file w filepath st
  = (Ok tt,
     add_log (LogRecord ERROR
       ("Error processing file " +:+ filepath +:+ ": " +:+ msg)) st).
Proof.
  intros H. unfold Importer.process_json_file, Importer.load. munfold.
  by rewrite H.
Qed.

Lemma process_json_file_spec w filepath st :
  exists recs,
    Importer.process_json_file w filepath st
    = (Ok tt,
       set_db (run_inserts (faults w) (file_rows w filepath) (db st))
              (add_logs recs st))
    /\ (forall msg, read_file w filepath = NotJson msg ->
          recs = [parse_error_record filepath msg])
    /\ (forall msg, read_file w filepath = Unopenable msg ->
          recs = [file_error_record filepath msg]).
Proof.
  destruct (read_file w filepath) as [msg|msg|j] eqn:Hread.
  - exists [file_error_record filepath msg].
    rewrite (process_json_file_unopenable w filepath msg st Hread).
    unfold file_rows. rewrite Hread. split_and!; [done|done|].
    by intros ? [= <-].
  - exists [parse_error_record filepath msg].
    rewrite (process_json_file_not_json w filepath msg st Hread).
    unfold file_rows. rewrite Hread. split_and!; [done| |done].
    by intros ? [= <-].
  - destruct (process_json_file_db w filepath st) as [recs H].
    exists recs. by split_and!.
Qed.

(** The loop over the files sends the statements of [run_files]; when
    no commit raises, its log shows every file being taken up. *)
Lemma process_files_spec w json_files st :
  exists recs,
    Importer.process_files w json_files st
    = (fst (run_files (faults w) (map (file_rows w) json_files) (db st)),
       set_db (snd (run_files (faults w) (map (file_rows w) json_files) (db st)))
              (add_logs recs st))
    /\ (fst (run_files (faults w) (map (file_rows w) json_files) (db st)) = Ok tt ->
        accounts_for w json_files recs).
Proof.
  revert st. induction json_files as [|f rest IH]; intros st.
  - exists []. simpl. munfold. rewrite add_logs_nil. split; [done|].
    intros _ g Hg. by apply elem_of_nil in Hg.
  - simpl Importer.process_files. munfold.
    destruct (process_json_file_spec w f (add_log (processing_record f) st))
      as (recs1 & H1 & Hbad1 & Hbad2).
    change (LogRecord INFO ("Processing file: " +:+ f)) with (processing_record f).
    rewrite H1. simpl db. simpl map. simpl run_files.
    destruct (commit (faults w) (run_inserts (faults w) (file_rows w f) (db st)))
      as [[[]|e] d'] eqn:Hc; simpl.
    + destruct (IH (set_db d' (set_db (run_inserts (faults w) (file_rows w f)
                      (db st)) (add_logs recs1 (add_log (processing_record f) st)))))
        as (recs2 & H2 & Hacc).
      rewrite H2. simpl db.
      exists ([processing_record f] ++ recs1 ++ recs2). split.
      * f_equal. unfold set_db, add_logs, add_log. simpl. f_equal.
        by rewrite <- !app_assoc.
      * intros Hok g Hg. apply elem_of_cons in Hg as [->|Hg].
        -- split_and!.
           ++ apply elem_of_app. left. by apply list_elem_of_singleton.
           ++ intros msg Hm. rewrite (Hbad1 msg Hm).
              apply elem_of_app. right. apply elem_of_app. left.
              by apply list_elem_of_singleton.
           ++ intros msg Hm. rewrite (Hbad2 msg Hm).
              apply elem_of_app. right. apply elem_of_app. left.
              by apply list_elem_of_singleton.
        -- destruct (Hacc Hok g Hg) as (Ha & Hb & Hc').
           split_and!.
           ++ apply elem_of_app. right. apply elem_of_app. by right.
           ++ intros msg Hm. apply elem_of_app. right. apply elem_of_app.
              right. by apply Hb.
           ++ intros msg Hm. apply elem_of_app. right. apply elem_of_app.
              right. by apply Hc'.
    + exists ([processing_record f] ++ recs1). split; [|done].
      f_equal. unfold set_db, add_logs, add_log. simpl. f_equal.
      by rewrite <- !app_assoc.
Qed.

(** Only a commit can make the loop over the files raise. *)
Lemma run_files_raises fp batches d e d' :
  run_files fp batches d = (Raise e, d') -> exists m, e = DbError m.
Proof.
  revert d. induction batches as [|rows rest IH]; intros d; simpl; [done|].
  unfold commit at 1. destruct (fp _ _) as [m|]; [|by apply IH].
  intros [= <- <-]. eauto.
Qed.

Lemma accounts_for_mono w json_files pre recs post :
  accounts_for w json_files recs ->
  accounts_for w json_files (pre ++ recs ++ post).
Proof.
  intros H f Hf. destruct (H f Hf) as (Ha & Hb & Hc).
  split_and!; intros; apply elem_of_app; right; apply elem_of_app; left; auto.
Qed.

Lemma main_connected w a relation :
  connect_fault w = None ->
  let json_files := Importer.expand w (Importer.files a) in
  let batches := map (file_rows w) json_files in
  exists recs,
    Importer.main w a (boot relation ∅)
    = (fst (import_session (faults w) batches relation),
       {| db := snd (import_session (faults w) batches relation);
          root_level := configured_level (Importer.verbose a) (Importer.debug a);
          log := recs; disk := ∅ |})
    /\ (fst (run_files (faults w) batches
               {| committed := relation; pending := []; result_set := [];
                  trace := []; connected := true |}) = Ok tt ->
        accounts_for w json_files recs).
Proof.
  intros Hc json_files batches. subst json_files batches.
  unfold Importer.main, get_db_connection, import_session, setup_logging.
  rewrite Hc. munfold. simpl.
  match goal with
  | |- context [Importer.process_files w ?l ?st] =>
      destruct (process_files_spec w l st) as (recs & -> & Hacc)
  end.
  simpl db in *.
  destruct (run_files _ _ _) as [[[]|e] d] eqn:Hrun; simpl in *.
  - eexists. split; [done|]. intros _.
    apply (accounts_for_mono _ _ [_] recs [_]). by apply Hacc.
  - destruct (run_files_raises _ _ _ _ _ Hrun) as [m ->]. simpl.
    destruct (rollback (faults w) d) as [r d']. simpl.
    destruct r; by eexists.
Qed.

Lemma main_refused w a relation e :
  connect_fault w = Some e ->
  Importer.main w a (boot relation ∅)
  = (Raise (SystemExit 1),
     add_log (LogRecord ERROR ("Error connecting to database: " +:+ errmsg e))
       {| db := db (boot relation ∅);
          root_level := configured_level (Importer.verbose a) (Importer.debug a);
          log := []; disk := ∅ |}).
Proof.
  intros Hc. unfold Importer.main, get_db_connection, setup_logging.
  rewrite Hc. by munfold.
Qed.

(** ** The database session *)

Lemma insert_committed fp r d : committed (snd (insert fp r d)) = committed d.
Proof. unfold insert. by repeat case_match. Qed.

Lemma insert_trace fp r d : trace (snd (insert fp r d)) = trace d ++ [OpInsert r].
Proof. unfold insert. by repeat case_match. Qed.

(** The uniqueness constraint holds after every INSERT, whatever the
    server answers. *)
Lemma insert_NoDup fp r d : NoDup (visible d) -> NoDup (visible (snd (insert fp r d))).
Proof.
  intros Hd. unfold insert, violates_unique.
  destruct (fp _ _); [done|]. case_bool_decide as Hin; [done|].
  unfold visible in *. simpl. rewrite app_assoc.
  apply NoDup_app. split_and!; [done| |apply NoDup_singleton].
  intros x Hx ->%list_elem_of_singleton. done.
Qed.

Lemma insert_visible fp r d :
  fp (length (trace d)) (OpInsert r) = None ->
  visible (snd (insert fp r d)) = store (visible d) r.
Proof.
  intros Hf. unfold insert, violates_unique, store. rewrite Hf.
  case_bool_decide; [done|]. unfold visible. simpl. by rewrite app_assoc.
Qed.

Lemma run_inserts_committed fp rows d :
  committed (run_inserts fp rows d) = committed d.
Proof.
  revert d. induction rows as [|r rows IH]; intros d; [done|].
  simpl. by rewrite IH, insert_committed.
Qed.

Lemma run_inserts_trace fp rows d :
  trace (run_inserts fp rows d) = trace d ++ map OpInsert rows.
Proof.
  revert d. induction rows as [|r rows IH]; intros d; simpl.
  - by rewrite app_nil_r.
  - by rewrite IH, insert_trace, <- app_assoc.
Qed.

Lemma run_inserts_NoDup fp rows d :
  NoDup (visible d) -> NoDup (visible (run_inserts fp rows d)).
Proof.
  revert d. induction rows as [|r rows IH]; intros d Hd; [done|].
  simpl. by apply IH, insert_NoDup.
Qed.

Lemma run_inserts_visible fp rows d :
  healthy fp ->
  visible (run_inserts fp rows d) = fold_left store rows (visible d).
Proof.
  intros Hh. revert d. induction rows as [|r rows IH]; intros d; [done|].
  simpl. by rewrite IH, insert_visible.
Qed.

Lemma commit_visible fp d : visible (snd (commit fp d)) = visible d.
Proof.
  unfold commit, visible. destruct (fp _ _); simpl; [done|].
  by rewrite app_nil_r.
Qed.

Lemma commit_ok fp d :
  fp (length (trace d)) OpCommit = None ->
  commit fp d
  = (Ok tt,
     {| committed := visible d; pending := []; result_set := result_set d;
        trace := trace d ++ [OpCommit]; connected := connected d |}).
Proof. intros Hf. unfold commit. by rewrite Hf. Qed.

Lemma run_files_NoDup fp batches d :
  NoDup (visible d) -> NoDup (visible (snd (run_files fp batches d))).
Proof.
  revert d. induction batches as [|rows rest IH]; intros d Hd; [done|].
  simpl.
  pose proof (commit_visible fp (run_inserts fp rows d)) as Hv.
  destruct (commit fp (run_inserts fp rows d)) as [[[]|e] d'] eqn:Hc; simpl in *.
  - apply IH. rewrite Hv. by apply run_inserts_NoDup.
  - rewrite Hv. by apply run_inserts_NoDup.
Qed.

Lemma rollback_committed fp d : committed (snd (rollback fp d)) = committed d.
Proof. unfold rollback. by destruct (fp _ _). Qed.

Lemma import_session_committed fp batches relation :
  committed (snd (import_session fp batches relation))
  = committed (snd (run_files fp batches
      {| committed := relation; pending := []; result_set := [];
         trace := []; connected := true |})).
Proof.
  unfold import_session.
  destruct (run_files _ _ _) as [[[]|e] d]; simpl; [done|].
  pose proof (rollback_committed fp d) as Hr.
  by destruct (rollback fp d).
Qed.

(** The uniqueness constraint survives a whole run, whatever the
    server answers. *)
Lemma import_session_NoDup fp batches relation :
  NoDup relation -> NoDup (committed (snd (import_session fp batches relation))).
Proof.
  intros Hd. rewrite import_session_committed.
  eapply (NoDup_app (committed _) (pending _)).
  apply (run_files_NoDup fp batches). unfold visible. simpl.
  by rewrite app_nil_r.
Qed.

Lemma store_elem (rows : list row) r x : x ∈ store rows r <-> x ∈ rows \/ x = r.
Proof.
  unfold store. case_bool_decide as Hin.
  - split; [auto|]. by intros [?| ->].
  - rewrite elem_of_app, list_elem_of_singleton. tauto.
Qed.

Lemma store_all_elem (rows added : list row) x :
  x ∈ fold_left store added rows <-> x ∈ rows \/ x ∈ added.
Proof.
  revert rows. induction added as [|r added IH]; intros rows; simpl.
  - rewrite elem_of_nil. tauto.
  - rewrite IH, store_elem, elem_of_cons. tauto.
Qed.

Lemma store_all_app (rows a b : list row) :
  fold_left store (a ++ b) rows = fold_left store b (fold_left store a rows).
Proof. apply fold_left_app. Qed.

(** With a server that raises nothing on its own account every file is
    committed, and the relation grows by the rows not yet stored. *)
Lemma run_files_healthy fp batches d :
  healthy fp -> pending d = [] ->
  exists d',
    run_files fp batches d = (Ok tt, d')
    /\ committed d' = fold_left store (concat batches) (committed d)
    /\ pending d' = []
    /\ trace d' = trace d ++ flat_map file_ops batches.
Proof.
  intros Hh. revert d. induction batches as [|rows rest IH]; intros d Hp.
  - exists d. simpl. by rewrite app_nil_r.
  - simpl run_files. rewrite commit_ok by apply Hh.
    edestruct IH as (d' & -> & Hc & Hp' & Ht); [done|].
    exists d'. split_and!; [done| | done |].
    + rewrite Hc. simpl. rewrite store_all_app. f_equal.
      rewrite run_inserts_visible by done.
      unfold visible. by rewrite Hp, app_nil_r.
    + rewrite Ht. simpl. rewrite run_inserts_trace. unfold file_ops.
      by rewrite <- !app_assoc.
Qed.

Lemma filter_absent (l : list row) r : r ∉ l -> filter (fun x => x = r) l = [].
Proof.
  induction l as [|x l IH]; intros Hr; [done|].
  apply not_elem_of_cons in Hr as [Hne Hr].
  rewrite filter_cons_False by congruence. by apply IH.
Qed.

Lemma NoDup_count_one (l : list row) r :
  NoDup l -> r ∈ l -> length (filter (fun x => x = r) l) = 1.
Proof.
  induction 1 as [|x l Hx Hl IH]; intros Hin.
  - by apply elem_of_nil in Hin.
  - rewrite filter_cons. case_decide as Heq.
    + subst x. simpl. by rewrite filter_absent.
    + apply elem_of_cons in Hin as [->|Hin]; [done|]. by apply IH.
Qed.

Lemma run_committed_connected w a relation :
  connect_fault w = None ->
  committed (db (snd (Importer.run w a relation)))
  = committed (snd (import_session (faults w)
      (map (file_rows w) (Importer.expand w (Importer.files a))) relation)).
Proof.
  intros Hc. unfold Importer.run.
  destruct (main_connected w a relation Hc) as (recs & -> & _). done.
Qed.

Lemma run_committed_refused w a relation e :
  connect_fault w = Some e ->
  committed (db (snd (Importer.run w a relation))) = relation.
Proof.
  intros Hc. unfold Importer.run. by rewrite (main_refused w a relation e Hc).
Qed.

(** Under a healthy server a run stores the relation extended by the
    pairs encountered, each at most once. *)
Lemma import_session_healthy fp batches relation :
  healthy fp ->
  import_session fp batches relation
  = (Ok tt,
     {| committed := fold_left store (concat batches) relation; pending := [];
        result_set := []; trace := flat_map file_ops batches;
        connected := false |}).
Proof.
  intros Hh. unfold import_session.
  edestruct (run_files_healthy fp batches) as (d' & -> & Hc & Hp & Ht);
    [done|reflexivity|].
  unfold close. simpl in *. by rewrite Hc, Ht.
Qed.

(** In a [data] sequence of the input format every entry is
    encountered. *)
Lemma entry_rows_chart entries :
  Forall chart_entry entries -> entry_rows entries = map entry_pair entries.
Proof.
  induction 1 as [|entry rest [Hs Ha] _ IH]; [done|].
  destruct entry as [| | |members]; try by destruct Hs.
  unfold entry_pair. simpl in *. destruct Hs as [s ->], Ha as [a' ->].
  simpl. by rewrite IH.
Qed.

(** C1: deduplication invariant.  Starting from a relation without
    duplicate rows, the relation after an importer run has no two equal
    rows, whatever the server answers; and when the connection is made
    and the server raises nothing but duplicate-key errors, the relation
    holds exactly one row for every (song, artist) pair encountered in
    the files, next to the rows it held before and nothing else.  In a
    [data] sequence of the input format the pairs encountered are those
    of all its entries. *)
Theorem importer_deduplicates w a relation :
  NoDup relation ->
  let final := committed (db (snd (Importer.run w a relation))) in
  let seen := encountered w (Importer.expand w (Importer.files a)) in
  NoDup final
  /\ (connect_fault w = None -> healthy (faults w) ->
      (forall r, r ∈ seen -> length (filter (fun x => x = r) final) = 1)
      /\ (forall r, r ∈ final <-> r ∈ relation \/ r ∈ seen))
  /\ (forall entries, Forall chart_entry entries ->
        document_rows (JObj [("data", JArr entries)]) = map entry_pair entries).
Proof.
  intros Hnd final seen.
  cut (NoDup final
       /\ (connect_fault w = None -> healthy (faults w) ->
           (forall r, r ∈ seen -> length (filter (fun x => x = r) final) = 1)
           /\ (forall r, r ∈ final <-> r ∈ relation \/ r ∈ seen))).
  { intros [H1 H2]. split_and!; [done|done|].
    intros entries Hall. unfold document_rows. simpl.
    by apply entry_rows_chart. }
  assert (Hfinal : NoDup final).
  { subst final. destruct (connect_fault w) as [e|] eqn:Hc.
    - by rewrite (run_committed_refused w a relation e Hc).
    - rewrite (run_committed_connected w a relation Hc).
      by apply import_session_NoDup. }
  split; [done|]. intros Hc Hh.
  assert (Hmem : forall r, r ∈ final <-> r ∈ relation \/ r ∈ seen).
  { intros r. subst final seen.
    rewrite (run_committed_connected w a relation Hc).
    rewrite import_session_healthy by done. simpl.
    unfold encountered. rewrite flat_map_concat_map. apply store_all_elem. }
  split; [|done]. intros r Hr.
  apply NoDup_count_one; [done|]. apply Hmem. by right.
Qed.

Lemma run_files_app fp batches1 batches2 d :
  run_files fp (batches1 ++ batches2) d
  = match run_files fp batches1 d with
    | (Ok _, d1) => run_files fp batches2 d1
    | (Raise e, d1) => (Raise e, d1)
    end.
Proof.
  revert d. induction batches1 as [|rows rest IH]; intros d; [done|].
  simpl. destruct (commit fp (run_inserts fp rows d)) as [[[]|e] d']; [|done].
  apply IH.
Qed.

(** As long as no commit raises, every file is followed by its commit:
    the statements received are those of the files, in order, each
    batch closed by one commit. *)
Lemma run_files_committing fp batches d :
  (forall n, n < length (trace d ++ flat_map file_ops batches) ->
             fp n OpCommit = None) ->
  exists d',
    run_files fp batches d = (Ok tt, d')
    /\ trace d' = trace d ++ flat_map file_ops batches.
Proof.
  revert d. induction batches as [|rows rest IH]; intros d Hf.
  - exists d. simpl. by rewrite app_nil_r.
  - simpl run_files. rewrite commit_ok.
    + edestruct IH as (d' & -> & Ht).
      * intros n Hn. apply Hf. simpl in *.
        rewrite run_inserts_trace in Hn. unfold file_ops.
        by rewrite <- !app_assoc in *.
      * exists d'. split; [done|]. rewrite Ht. simpl.
        rewrite run_inserts_trace. unfold file_ops. by rewrite <- !app_assoc.
    + apply Hf. rewrite run_inserts_trace. simpl. unfold file_ops.
      rewrite !length_app. simpl. lia.
Qed.

Lemma rollback_trace fp d : trace (snd (rollback fp d)) = trace d ++ [OpRollback].
Proof. unfold rollback. by destruct (fp _ _). Qed.

(** The exit status of a run that reached the server is decided by the
    rollback alone. *)
Lemma import_session_result fp batches relation :
  (forall n, fp n OpRollback = None) ->
  fst (import_session fp batches relation) = Ok tt.
Proof.
  intros Hr. unfold import_session.
  destruct (run_files _ _ _) as [[[]|e] d]; [done|].
  unfold rollback. by rewrite Hr.
Qed.

Lemma run_status_connected w a relation :
  connect_fault w = None ->
  fst (Importer.run w a relation)
  = exit_status (fst (import_session (faults w)
      (map (file_rows w) (Importer.expand w (Importer.files a))) relation)).
Proof.
  intros Hc. unfold Importer.run.
  destruct (main_connected w a relation Hc) as (recs & -> & _). done.
Qed.

Lemma run_status_refused w a relation e :
  connect_fault w = Some e -> fst (Importer.run w a relation) = 1%Z.
Proof.
  intros Hc. unfold Importer.run. by rewrite (main_refused w a relation e Hc).
Qed.

Lemma store_all_present (rows added : list row) :
  (forall r, r ∈ added -> r ∈ rows) -> fold_left store added rows = rows.
Proof.
  induction added as [|r added IH]; intros Hin; [done|].
  simpl. unfold store at 2. rewrite bool_decide_eq_true_2.
  - apply IH. intros x Hx. apply Hin. by right.
  - apply Hin. by left.
Qed.

(** An INSERT of a row the session already sees is answered with the
    duplicate-key error; the entry is skipped with one debug record. *)
Lemma insert_entry_duplicate w members s a st :
  to_cell (from_option id JNull (dict_lookup "song" members)) = Some s ->
  to_cell (from_option id JNull (dict_lookup "artist" members)) = Some a ->
  faults w (length (trace (db st))) (OpInsert (s, a)) = None ->
  (s, a) ∈ visible (db st) ->
  Importer.insert_entry w (JObj members) st
  = (Ok tt,
     set_db (received (OpInsert (s, a)) (db st))
       (add_log (LogRecord DEBUG
          ("Duplicate entry skipped: " +:+ cell_str s +:+ " - " +:+ cell_str a))
          st)).
Proof.
  intros Hs Ha Hf Hin.
  unfold Importer.insert_entry, Importer.execute_insert. munfold. simpl.
  rewrite Hs, Ha. unfold insert, violates_unique. rewrite Hf.
  rewrite bool_decide_eq_true_2 by done. simpl.
  destruct (from_option id JNull (dict_lookup "song" members));
    destruct (from_option id JNull (dict_lookup "artist" members));
    by simplify_eq/=.
Qed.

(** An error record is shown at every verbosity, a debug record only
    under [--debug]. *)
Lemma shown_error root msg records :
  LogRecord ERROR msg ∈ records -> LogRecord ERROR msg ∈ shown root records.
Proof.
  intros Hin. apply list_elem_of_filter. split; [|done]. by destruct root.
Qed.

Lemma shown_debug verbose msg :
  shown (configured_level verbose false) [LogRecord DEBUG msg] = [].
Proof. by destruct verbose. Qed.

(** C2: importer idempotence.  With the connection made and a server
    that raises nothing but duplicate-key errors, a second run on the
    same files leaves the relation exactly as the first run left it,
    and both runs exit with status 0; an entry whose pair is already
    stored is skipped with a single debug-level record and no row, and
    that record is shown only under [--debug]. *)
Theorem importer_idempotent w a relation :
  connect_fault w = None -> healthy (faults w) ->
  let first := Importer.run w a relation in
  let second := Importer.run w a (committed (db (snd first))) in
  committed (db (snd second)) = committed (db (snd first))
  /\ fst first = 0%Z /\ fst second = 0%Z
  /\ (forall members s a' st,
        to_cell (from_option id JNull (dict_lookup "song" members)) = Some s ->
        to_cell (from_option id JNull (dict_lookup "artist" members)) = Some a' ->
        (s, a') ∈ visible (db st) ->
        Importer.insert_entry w (JObj members) st
        = (Ok tt,
           set_db (received (OpInsert (s, a')) (db st))
             (add_log (LogRecord DEBUG
                ("Duplicate entry skipped: " +:+ cell_str s +:+ " - "
                 +:+ cell_str a')) st)))
  /\ (forall verbose msg,
        shown (configured_level verbose false) [LogRecord DEBUG msg] = []).
Proof.
  intros Hc Hh first second. subst first second.
  rewrite !run_status_connected by done.
  rewrite !import_session_result by (intros; apply Hh).
  rewrite !run_committed_connected by done.
  rewrite !import_session_healthy by done. simpl.
  split_and!; [|done|done| |].
  - apply store_all_present. intros r Hr. apply store_all_elem. by right.
  - intros members s a' st Hs Ha Hin.
    by apply insert_entry_duplicate.
  - apply shown_debug.
Qed.

(** When the connection is made and no commit raises, the run takes up
    every file, sends the statements of each followed by one commit, and
    exits with status 0. *)
Lemma run_all_files w a relation :
  connect_fault w = None ->
  (forall n, faults w n OpCommit = None) ->
  let json_files := Importer.expand w (Importer.files a) in
  let out := Importer.run w a relation in
  fst out = 0%Z
  /\ accounts_for w json_files (log (snd out))
  /\ trace (db (snd out))
     = flat_map (fun g => file_ops (file_rows w g)) json_files.
Proof.
  intros Hc Hf json_files out. subst json_files out. unfold Importer.run.
  destruct (main_connected w a relation Hc) as (recs & -> & Hacc).
  simpl in *. unfold import_session in *.
  edestruct (run_files_committing (faults w)) as (d' & Hrun & Ht);
    [intros n _; apply Hf|].
  rewrite Hrun in *. simpl in *. split_and!; [done|by apply Hacc|].
  rewrite Ht. simpl. by rewrite flat_map_concat_map, map_map, <- flat_map_concat_map.
Qed.

(** C7: parse-fault containment.  A file that does not parse as JSON is
    skipped whole at the price of one error-level record: nothing is
    sent to the server for it.  When the connection is made and no
    commit raises, the run still takes up every file of the invocation
    and sends the statements of each; the exit status is 0 whenever the
    connection is made and no rollback raises, and 1 when the connection
    is refused. *)
Theorem parse_fault_contained w a relation f msg :
  read_file w f = NotJson msg ->
  f ∈ Importer.expand w (Importer.files a) ->
  let json_files := Importer.expand w (Importer.files a) in
  let out := Importer.run w a relation in
  (forall st, Importer.process_json_file w f st
              = (Ok tt, add_log (parse_error_record f msg) st))
  /\ file_rows w f = []
  /\ (connect_fault w = None -> (forall n, faults w n OpCommit = None) ->
      (forall root, parse_error_record f msg ∈ shown root (log (snd out)))
      /\ (forall g, g ∈ json_files -> processing_record g ∈ log (snd out))
      /\ trace (db (snd out))
         = flat_map (fun g => file_ops (file_rows w g)) json_files
      /\ fst out = 0%Z)
  /\ (connect_fault w = None -> (forall n, faults w n OpRollback = None) ->
      fst out = 0%Z)
  /\ (forall e, connect_fault w = Some e -> fst out = 1%Z).
Proof.
  intros Hread Hin json_files out. split_and!.
  - intros st. by apply process_json_file_not_json.
  - unfold file_rows. by rewrite Hread.
  - intros Hc Hf.
    destruct (run_all_files w a relation Hc Hf) as (Hcode & Hacc & Ht).
    split_and!; [|  |done|done].
    + intros root. apply shown_error. by apply (Hacc f Hin).
    + intros g Hg. by apply (Hacc g Hg).
  - intros Hc Hr. subst out. rewrite run_status_connected by done.
    by rewrite import_session_result.
  - intros e Hc. by apply (run_status_refused w a relation e).
Qed.

(** C10: a path that cannot be opened.  The file is skipped at the price
    of one error-level record and nothing is sent to the server for it;
    when the connection is made and no commit raises, the run goes on to
    every other file, and it exits with status 0 whenever the
    connection is made and no rollback raises. *)
Theorem unopenable_file_skipped w a relation f msg :
  read_file w f = Unopenable msg ->
  f ∈ Importer.expand w (Importer.files a) ->
  let json_files := Importer.expand w (Importer.files a) in
  let out := Importer.run w a relation in
  (forall st, Importer.process_json_file w f st
              = (Ok tt, add_log (file_error_record f msg) st))
  /\ file_rows w f = []
  /\ (connect_fault w = None -> (forall n, faults w n OpCommit = None) ->
      (forall root, file_error_record f msg ∈ shown root (log (snd out)))
      /\ (forall g, g ∈ json_files -> processing_record g ∈ log (snd out))
      /\ trace (db (snd out))
         = flat_map (fun g => file_ops (file_rows w g)) json_files
      /\ fst out = 0%Z)
  /\ (connect_fault w = None -> (forall n, faults w n OpRollback = None) ->
      fst out = 0%Z).
Proof.
  intros Hread Hin json_files out. split_and!.
  - intros st. by apply process_json_file_unopenable.
  - unfold file_rows. by rewrite Hread.
  - intros Hc Hf.
    destruct (run_all_files w a relation Hc Hf) as (Hcode & Hacc & Ht).
    split_and!; [|  |done|done].
    + intros root. apply shown_error. by apply (Hacc f Hin).
    + intros g Hg. by apply (Hacc g Hg).
  - intros Hc Hr. subst out. rewrite run_status_connected by done.
    by rewrite import_session_result.
Qed.

(** C8: transaction granularity.  With the connection made: (1) when no
    commit raises, the statements the server receives are, file by file,
    the inserts of that file followed by exactly one commit; (2) when
    the commits of the files [earlier] succeed and the commit of the
    next file [f] raises, the run sends one rollback and nothing after
    it, and the relation is left exactly as a run over the files
    [earlier] alone leaves it: the rows committed for them stay. *)
Theorem one_commit_per_file w a relation :
  connect_fault w = None ->
  let json_files := Importer.expand w (Importer.files a) in
  let final := db (snd (Importer.run w a relation)) in
  ((forall n, faults w n OpCommit = None) ->
   trace final = flat_map (fun g => file_ops (file_rows w g)) json_files)
  /\ (forall earlier f later a0 e,
        json_files = earlier ++ f :: later ->
        Importer.expand w (Importer.files a0) = earlier ->
        let sent := flat_map (fun g => file_ops (file_rows w g)) earlier in
        (forall n, n < length sent -> faults w n OpCommit = None) ->
        faults w (length sent + length (file_rows w f)) OpCommit = Some e ->
        trace final
        = sent ++ map OpInsert (file_rows w f) ++ [OpCommit; OpRollback]
        /\ committed final = committed (db (snd (Importer.run w a0 relation)))
        /\ pending final = []).
Proof.
  intros Hc json_files final. split.
  - intros Hf. by apply (run_all_files w a relation Hc Hf).
  - intros earlier f later a0 e Hsplit Hexp sent Hok Hbad.
    subst final. unfold Importer.run.
    destruct (main_connected w a relation Hc) as (recs & -> & _).
    destruct (main_connected w a0 relation Hc) as (recs0 & -> & _).
    simpl. fold json_files. rewrite Hsplit, Hexp.
    set (d0 := {| committed := relation; pending := []; result_set := [];
                  trace := []; connected := true |}).
    destruct (run_files_committing (faults w) (map (file_rows w) earlier) d0)
      as (d1 & Hrun1 & Ht1).
    { intros n Hn. apply Hok. simpl in Hn. subst sent.
      by rewrite flat_map_concat_map, map_map, <- flat_map_concat_map in Hn. }
    simpl in Ht1.
    rewrite flat_map_concat_map, map_map, <- flat_map_concat_map in Ht1.
    fold sent in Ht1.
    set (d2 := received OpCommit (run_inserts (faults w) (file_rows w f) d1)).
    assert (Hsess : import_session (faults w)
                      (map (file_rows w) (earlier ++ f :: later)) relation
                    = (fst (rollback (faults w) d2),
                       close (snd (rollback (faults w) d2)))).
    { unfold import_session. fold d0. rewrite map_app, run_files_app, Hrun1.
      simpl map. simpl run_files. unfold commit.
      replace (length (trace (run_inserts (faults w) (file_rows w f) d1)))
        with (length sent + length (file_rows w f))
        by (by rewrite run_inserts_trace, Ht1, length_app, length_map).
      rewrite Hbad. fold d2. by destruct (rollback (faults w) d2). }
    rewrite Hsess. unfold import_session. fold d0. rewrite Hrun1. simpl.
    rewrite rollback_trace, rollback_committed. subst d2. simpl.
    rewrite run_inserts_trace, run_inserts_committed, Ht1.
    split_and!; [|done|done].
    by rewrite <- !app_assoc.
Qed.

(** ** Strings *)

Lemma str_app_cons c a b : String c a +:+ b = String c (a +:+ b).
Proof. reflexivity. Qed.

Lemma str_app_assoc a b c : (a +:+ b) +:+ c = a +:+ (b +:+ c).
Proof.
  induction a as [|x a IH]; [done|].
  rewrite !str_app_cons. by rewrite IH.
Qed.

Lemma contains_app c a b : contains c (a +:+ b) = contains c a || contains c b.
Proof.
  induction a as [|x a IH]; [done|].
  rewrite str_app_cons. simpl. by rewrite IH, orb_assoc.
Qed.

(** ** Escaping *)

Lemma escape_cons c s :
  Exporter.escape (String c s) = entity c +:+ Exporter.escape s.
Proof. each_byte c; reflexivity. Qed.

(** The three chained replacements amount to replacing each character
    on its own: the text put in place of [&] holds neither [<] nor [>]. *)
Lemma escape_each_char s : Exporter.escape s = escape_each s.
Proof.
  induction s as [|c s IH]; [done|].
  rewrite escape_cons. simpl. by rewrite IH.
Qed.

Lemma entity_plain c :
  c <> "&"%char -> c <> "<"%char -> c <> ">"%char -> entity c = String c "".
Proof.
  intros H1 H2 H3. unfold entity.
  by rewrite !(proj2 (Ascii.eqb_neq _ _)).
Qed.

Lemma entity_no_markup c :
  contains "<" (entity c) = false /\ contains ">" (entity c) = false.
Proof. each_byte c; split; reflexivity. Qed.

Lemma escape_each_no_markup s :
  contains "<" (escape_each s) = false /\ contains ">" (escape_each s) = false.
Proof.
  induction s as [|c s [IH1 IH2]]; [done|].
  simpl. rewrite !contains_app, IH1, IH2.
  by destruct (entity_no_markup c) as [-> ->].
Qed.

(** ** URL encoding *)

Lemma quote_space_cons c rest :
  replace " " "+"
    ((if Exporter.always_safe c || contains c " " then String c ""
      else Exporter.percent c) +:+ rest)
  = encode_byte c +:+ replace " " "+" rest.
Proof. each_byte c; reflexivity. Qed.

Lemma quote_space_encode s :
  replace " " "+" (Exporter.quote " " s) = encode_query s.
Proof.
  induction s as [|c s IH]; [done|].
  simpl. by rewrite quote_space_cons, IH.
Qed.

Lemma quote_plain_encode s :
  contains " " s = false -> Exporter.quote "" s = encode_query s.
Proof.
  induction s as [|c s IH]; [done|].
  simpl. intros [Hc Hs]%orb_false_elim. rewrite IH by done. f_equal.
  unfold encode_byte. rewrite Hc. by rewrite orb_false_r.
Qed.

(** [quote_plus] encodes byte by byte. *)
Lemma quote_plus_encode s : Exporter.quote_plus s = encode_query s.
Proof.
  unfold Exporter.quote_plus. destruct (contains " " s) eqn:Hs.
  - apply quote_space_encode.
  - by apply quote_plain_encode.
Qed.

Lemma decode_encode_byte c rest :
  decode_query (encode_byte c +:+ rest) = String c (decode_query rest).
Proof. each_byte c; reflexivity. Qed.

(** Decoding the encoded query gives the query back. *)
Lemma decode_encode_query s : decode_query (encode_query s) = s.
Proof.
  induction s as [|c s IH]; [done|].
  simpl. by rewrite decode_encode_byte, IH.
Qed.

Lemma create_search_url_encode info query :
  Exporter.create_search_url info query
  = "https://www.google.com/search?q="
    +:+ encode_query (query +:+ " site:" +:+ Exporter.site info).
Proof.
  unfold Exporter.create_search_url, Exporter.urlencode. simpl.
  rewrite !quote_plus_encode. reflexivity.
Qed.

(** ** Table rows *)

(** A row whose two values are strings renders, without touching the
    state. *)
Lemma create_table_row_rendered artist song st :
  Exporter.create_table_row (Some artist) (Some song) st
  = (Ok (row_html artist song), st).
Proof.
  unfold Exporter.create_table_row, Exporter.row_parts. simpl.
  rewrite !create_search_url_encode, !escape_each_char. simpl.
  unfold mret, M_ret, ret, row_html, search_url, apple_music, spotify.
  simpl join. rewrite !str_app_assoc. reflexivity.
Qed.



(** A row with a NULL value fails with one error record and yields the
    empty string. *)
Lemma create_table_row_null artist song st :
  artist = None \/ song = None ->
  exists msg,
    Exporter.create_table_row artist song st
    = (Ok "", add_log (LogRecord ERROR msg) st).
Proof.
  intros Hnull. unfold Exporter.create_table_row.
  destruct artist as [artist|]; simpl.
  - destruct song as [song|]; simpl; [by destruct Hnull|].
    unfold Exporter.row_failed. munfold. simpl. by eexists.
  - unfold Exporter.row_failed. munfold. simpl. by eexists.
Qed.

Lemma row_html_truthy artist song : truthy (row_html artist song) = true.
Proof. reflexivity. Qed.

Section anchors.

#[local] Arguments String.append !s1 s2 /.

Lemma occurrences_skip pat a b :
  contains "<" a = false ->
  occurrences (String "<" pat) (a +:+ b) = occurrences (String "<" pat) b.
Proof.
  induction a as [|c a IH]; [done|].
  intros [Hc Ha]%orb_false_elim. rewrite str_app_cons.
  change (occurrences (String "<" pat) (String c (a +:+ b)))
    with ((if String.prefix (String "<" pat) (String c (a +:+ b)) then 1 else 0)
          + occurrences (String "<" pat) (a +:+ b)).
  rewrite IH by done.
  change (String.prefix (String "<" pat) (String c (a +:+ b)))
    with (if ascii_dec "<" c then String.prefix pat (a +:+ b) else false).
  apply Ascii.eqb_neq in Hc. by destruct (ascii_dec "<" c) as [<-|].
Qed.

Lemma encode_byte_no_lt c : contains "<" (encode_byte c) = false.
Proof. each_byte c; reflexivity. Qed.

Lemma encode_query_no_lt s : contains "<" (encode_query s) = false.
Proof.
  induction s as [|c s IH]; [done|].
  simpl encode_query. by rewrite contains_app, encode_byte_no_lt, IH.
Qed.

(** A rendered row holds exactly two anchors. *)
Lemma row_html_two_links artist song :
  occurrences "<a href=" (row_html artist song) = 2.
Proof.
  unfold row_html, Exporter.link_cell, search_url, join. simpl.
  rewrite ?str_app_assoc.
  rewrite occurrences_skip by apply escape_each_no_markup. simpl.
  rewrite ?str_app_assoc.
  rewrite occurrences_skip by apply escape_each_no_markup. simpl.
  rewrite ?str_app_assoc.
  rewrite occurrences_skip by apply encode_query_no_lt. simpl.
  rewrite ?str_app_assoc.
  rewrite occurrences_skip by apply encode_query_no_lt. simpl.
  reflexivity.
Qed.

End anchors.

Lemma escape_each_app a b : escape_each (a +:+ b) = escape_each a +:+ escape_each b.
Proof.
  induction a as [|c a IH]; [done|].
  rewrite str_app_cons. simpl. by rewrite IH, str_app_assoc.
Qed.

(** C4: HTML escaping.  In the artist and song cells of a rendered row
    each [&], [<] and [>] of the value is replaced by [&amp;], [&lt;]
    and [&gt;] and every other character is kept as it is; the cell text
    therefore holds no [<] and no [>], and a value containing
    [<script>] shows it as [&lt;script&gt;]. *)
Theorem cells_are_escaped artist song st :
  (exists apple_cell spotify_cell,
     Exporter.create_table_row (Some artist) (Some song) st
     = (Ok (join nl [ "<tr>";
                      "<td>" +:+ Exporter.escape artist +:+ "</td>";
                      "<td>" +:+ Exporter.escape song +:+ "</td>";
                      apple_cell; spotify_cell;
                      "</tr>" ]), st))
  /\ (forall s, Exporter.escape s = escape_each s)
  /\ entity "&" = "&amp;" /\ entity "<" = "&lt;" /\ entity ">" = "&gt;"
  /\ (forall c, c <> "&"%char -> c <> "<"%char -> c <> ">"%char ->
                entity c = String c "")
  /\ (forall s, contains "<" (Exporter.escape s) = false
                /\ contains ">" (Exporter.escape s) = false)
  /\ (forall before after,
        Exporter.escape (before +:+ "<script>" +:+ after)
        = Exporter.escape before +:+ "&lt;script&gt;" +:+ Exporter.escape after).
Proof.
  split_and!; try done.
  - rewrite create_table_row_rendered. unfold row_html.
    rewrite !escape_each_char. by eexists _, _.
  - apply escape_each_char.
  - apply entity_plain.
  - intros s. rewrite escape_each_char. apply escape_each_no_markup.
  - intros before after. rewrite !escape_each_char, !escape_each_app.
    reflexivity.
Qed.

(** C5: search links.  A rendered row is the six parts below: after the
    artist and song cells come exactly two link cells, Apple Music
    first and Spotify second.  The target of each is the search URL
    whose [q] parameter is the URL-encoding of
    [<artist> <song> site:<domain>], made from the values as fetched and
    not from their escaped form: decoding the parameter gives that very
    string back.  The row holds two anchors and no more. *)
Theorem rows_link_to_searches artist song st :
  let query domain := artist +:+ " " +:+ song +:+ " site:" +:+ domain in
  let url domain :=
    "https://www.google.com/search?q=" +:+ Exporter.quote_plus (query domain) in
  let row :=
    join nl [ "<tr>";
              "<td>" +:+ Exporter.escape artist +:+ "</td>";
              "<td>" +:+ Exporter.escape song +:+ "</td>";
              Exporter.link_cell (url "music.apple.com") apple_music;
              Exporter.link_cell (url "open.spotify.com") spotify;
              "</tr>" ] in
  Exporter.create_table_row (Some artist) (Some song) st = (Ok row, st)
  /\ Exporter.sites_get "apple_music" Exporter.SEARCH_SITES = Ok apple_music
  /\ Exporter.sites_get "spotify" Exporter.SEARCH_SITES = Ok spotify
  /\ Exporter.create_search_url apple_music (artist +:+ " " +:+ song)
     = url "music.apple.com"
  /\ Exporter.create_search_url spotify (artist +:+ " " +:+ song)
     = url "open.spotify.com"
  /\ (forall domain,
        decode_query (Exporter.quote_plus (query domain)) = query domain)
  /\ occurrences "<a href=" row = 2.
Proof.
  intros query url row.
  assert (Hrow : row = row_html artist song).
  { subst row url query. unfold row_html, search_url.
    by rewrite !escape_each_char, !quote_plus_encode. }
  split_and!; try done.
  - by rewrite create_table_row_rendered, Hrow.
  - subst url query. rewrite create_search_url_encode, quote_plus_encode.
    simpl. by rewrite !str_app_assoc.
  - subst url query. rewrite create_search_url_encode, quote_plus_encode.
    simpl. by rewrite !str_app_assoc.
  - intros domain. rewrite quote_plus_encode. apply decode_encode_query.
  - rewrite Hrow. apply row_html_two_links.
Qed.

(** ** The exporter run *)

(** The template formats to the document around the rows. *)
Lemma format_template table_rows :
  Exporter.format Exporter.get_html_template [("table_rows", table_rows)]
  = Ok (document table_rows).
Proof. vm_compute. reflexivity. Qed.

(** The loop keeps the rows that render, in the order fetched, and
    leaves one error record for each row it drops. *)
Lemma render_rows_spec fetched st :
  exists recs,
    Exporter.render_rows fetched st
    = (Ok (map (fun t => row_html (fst t) (snd t)) (omap renderable fetched)),
       add_logs recs st)
    /\ Forall (fun r => lvl r = ERROR) recs
    /\ length recs + length (omap renderable fetched) = length fetched.
Proof.
  revert st. induction fetched as [|[artist song] rest IH]; intros st.
  - exists []. split_and!; [|done|done].
    simpl. munfold. f_equal. destruct st. unfold add_logs. simpl.
    by rewrite app_nil_r.
  - simpl Exporter.render_rows. munfold.
    assert (Hcase : (exists x y, artist = Some x /\ song = Some y)
                    \/ (artist = None \/ song = None)).
    { destruct artist, song; eauto. }
    destruct Hcase as [(x & y & -> & ->)|Hnull].
    + rewrite create_table_row_rendered.
      destruct (IH st) as (recs & -> & Hlv & Hlen).
      exists recs. rewrite row_html_truthy. simpl.
      split_and!; [done|done|unfold omap in *; simpl; lia].
    + destruct (create_table_row_null artist song st Hnull) as [msg ->].
      destruct (IH (add_log (LogRecord ERROR msg) st)) as (recs & -> & Hlv & Hlen).
      exists (LogRecord ERROR msg :: recs).
      replace (omap renderable ((artist, song) :: rest))
        with (omap renderable rest)
        by (destruct artist, song; try done; by destruct Hnull).
      split_and!.
      * simpl. f_equal. unfold add_logs, add_log. simpl. f_equal.
        by rewrite <- app_assoc.
      * by constructor.
      * unfold omap in *. simpl. lia.
Qed.

Section exporter_run.

#[local] Opaque Exporter.format document join.

(** The outcome of an exporter run, case by case: the exit status and
    the output disk. *)
Lemma exporter_run_cases w a relation files :
  let out := Exporter.run w a relation files in
  let rows := map (fun t => row_html (fst t) (snd t)) (rendered relation) in
  match connect_fault w with
  | Some _ => fst out = 1%Z /\ disk (snd out) = files
  | None =>
      match faults w 0 OpSelect with
      | Some _ => fst out = 1%Z /\ disk (snd out) = files
      | None =>
          match rendered relation with
          | [] =>
              fst out = 1%Z /\ disk (snd out) = files
              /\ LogRecord ERROR "An error occurred: No valid rows were generated"
                 ∈ log (snd out)
          | _ :: _ =>
              match write_fault w (Exporter.output a) with
              | Some _ => fst out = 1%Z /\ disk (snd out) = files
              | None =>
                  fst out = 0%Z
                  /\ disk (snd out)
                     = <[Exporter.output a := document (join nl rows)]> files
              end
          end
      end
  end.
Proof.
  intros out rows. subst out rows.
  unfold Exporter.run, Exporter.main, get_db_connection, setup_logging.
  destruct (connect_fault w) as [e|]; [by munfold|].
  unfold Exporter.fetchall, select. munfold. simpl.
  destruct (faults w 0 OpSelect) as [e|]; [done|]. simpl.
  unfold visible. simpl. rewrite app_nil_r. fold (rendered relation).
  match goal with
  | |- context [Exporter.render_rows ?l ?st] =>
      destruct (render_rows_spec l st) as (recs & -> & Hlv & Hlen)
  end.
  fold (rendered relation).
  destruct (rendered relation) as [|t ts] eqn:Hr; simpl.
  - destruct (Exporter.debug a); simpl; (split_and!; [done|done|]);
      unfold add_log, add_logs; simpl;
      change ("An error occurred: " +:+ "No valid rows were generated")
        with "An error occurred: No valid rows were generated";
      set_solver.
  - rewrite format_template. simpl. unfold Exporter.write_text.
    destruct (write_fault w (Exporter.output a)) as [msg|]; simpl; [|done].
    by destruct (Exporter.debug a).
Qed.

End exporter_run.

(** ** The order of the query *)

Lemma cell_le_refl a : cell_le a a.
Proof. destruct a; simpl; [reflexivity|done]. Qed.

Lemma cell_le_trans a b c : cell_le a b -> cell_le b c -> cell_le a c.
Proof.
  destruct a, b, c; simpl; try done. apply (transitivity (R := String.le)).
Qed.

Lemma cell_le_antisym a b : cell_le a b -> cell_le b a -> a = b.
Proof.
  destruct a, b; simpl; try done. intros H1 H2. f_equal.
  by apply (anti_symm String.le).
Qed.

Lemma cell_le_total a b : cell_le a b \/ cell_le b a.
Proof.
  destruct a as [x|], b as [y|]; simpl; auto. apply (total String.le).
Qed.

Lemma order_le_trans : Transitive order_le.
Proof.
  intros x y z [Hxy1 Hxy2] [Hyz1 Hyz2]. split.
  - by eapply cell_le_trans.
  - intros Heq. rewrite Heq in Hxy1.
    assert (y.1 = z.1) as Hyz by (by apply cell_le_antisym).
    eapply cell_le_trans; [apply Hxy2; congruence|by apply Hyz2].
Qed.

Lemma order_le_total : Total order_le.
Proof.
  intros x y. destruct (decide (x.1 = y.1)) as [Heq|Hne].
  - destruct (cell_le_total x.2 y.2).
    + left. split; [rewrite Heq; apply cell_le_refl|done].
    + right. split; [rewrite Heq; apply cell_le_refl|done].
  - destruct (cell_le_total x.1 y.1).
    + left. by split.
    + right. split; [done|]. intros Heq. by destruct Hne.
Qed.

Lemma select_ordered_sorted relation :
  StronglySorted order_le (select_ordered relation).
Proof.
  apply (@StronglySorted_merge_sort _ order_le _ order_le_trans order_le_total).
Qed.

Lemma select_ordered_perm relation :
  select_ordered relation ≡ₚ map (fun r : row => (snd r, fst r)) relation.
Proof. apply (merge_sort_Permutation order_le). Qed.

Lemma renderable_order x y t u :
  renderable x = Some t -> renderable y = Some u ->
  order_le x y -> artist_then_song t u.
Proof.
  destruct x as [[a|] [s|]], y as [[a'|] [s'|]]; simpl; try done.
  intros [= <-] [= <-] [H1 H2]. simpl in *. unfold artist_then_song. simpl.
  destruct (decide (a = a')) as [->|Hne]; [right|left]; auto.
Qed.

Lemma omap_sorted (l : list (cell * cell)) :
  StronglySorted order_le l -> StronglySorted artist_then_song (omap renderable l).
Proof.
  induction 1 as [|x l Hl IH Hx]; [constructor|].
  simpl. destruct (renderable x) as [t|] eqn:Ht; [|done].
  constructor; [done|]. apply Forall_forall. intros u Hu.
  apply list_elem_of_omap in Hu as (y & Hy & Hyu).
  eapply renderable_order; [done|done|].
  by eapply (proj1 (Forall_forall _ _) Hx).
Qed.

(** The tracks of the table are sorted by artist and then by song. *)
Lemma rendered_sorted relation : StronglySorted artist_then_song (rendered relation).
Proof. apply omap_sorted, select_ordered_sorted. Qed.

(** They are the rows of the relation that hold no NULL. *)
Lemma rendered_elem relation artist song :
  (artist, song) ∈ rendered relation <-> (Some song, Some artist) ∈ relation.
Proof.
  unfold rendered. rewrite list_elem_of_omap. split.
  - intros (x & Hx & Hr). rewrite select_ordered_perm in Hx.
    apply list_elem_of_In, in_map_iff in Hx as ([s a] & <- & Hin).
    apply list_elem_of_In in Hin. simpl in Hr.
    destruct a, s; by simplify_eq/=.
  - intros Hin. exists (Some artist, Some song). split; [|done].
    rewrite select_ordered_perm. apply list_elem_of_In, in_map_iff.
    exists (Some song, Some artist). split; [done|]. by apply list_elem_of_In.
Qed.

(** ** The exporter run, property by property *)

(** C3: exporter ordering.  The tracks of the table are the rows of the
    relation that hold no NULL, sorted by artist and, for equal artists,
    by song; when the run succeeds the document written is the template
    around their rows joined in that order.  For the relation holding
    Daft Punk's and Abba's tracks, Abba's row is written first. *)
Theorem rows_sorted_by_artist_then_song w a relation files :
  let out := Exporter.run w a relation files in
  let tracks := rendered relation in
  StronglySorted artist_then_song tracks
  /\ (forall artist song,
        (artist, song) ∈ tracks <-> (Some song, Some artist) ∈ relation)
  /\ (forall st, fst (Exporter.render_rows (select_ordered relation) st)
                 = Ok (map (fun t => row_html (fst t) (snd t)) tracks))
  /\ (connect_fault w = None -> faults w 0 OpSelect = None ->
      write_fault w (Exporter.output a) = None -> tracks <> [] ->
      fst out = 0%Z
      /\ disk (snd out) !! Exporter.output a
         = Some (document
             (join nl (map (fun t => row_html (fst t) (snd t)) tracks))))
  /\ rendered Examples.two_tracks
     = [("Abba", "Dancing Queen"); ("Daft Punk", "One More Time")]
  /\ disk (snd (Exporter.run Examples.sample_world Examples.export_args
                  Examples.two_tracks ∅)) !! "hot100.html"
     = Some (document (row_html "Abba" "Dancing Queen" +:+ nl
                       +:+ row_html "Daft Punk" "One More Time")).
Proof.
  intros out tracks. split_and!.
  - apply rendered_sorted.
  - apply rendered_elem.
  - intros st. by destruct (render_rows_spec (select_ordered relation) st)
      as (recs & -> & _).
  - intros Hc Hs Hw Hne.
    pose proof (exporter_run_cases w a relation files) as H. simpl in H.
    rewrite Hc, Hs, Hw in H. fold tracks out in H.
    destruct tracks; [done|]. destruct H as [-> ->].
    split; [done|]. apply lookup_insert_eq.
  - by vm_compute.
  - by vm_compute.
Qed.

(** Without a row that renders there is no document. *)
Lemma zero_rows_outcome w a relation files :
  rendered relation = [] ->
  let out := Exporter.run w a relation files in
  fst out = 1%Z
  /\ disk (snd out) = files
  /\ (forall st, fst (Exporter.render_rows (select_ordered relation) st) = Ok [])
  /\ (connect_fault w = None -> faults w 0 OpSelect = None ->
      LogRecord ERROR "An error occurred: No valid rows were generated"
      ∈ log (snd out)).
Proof.
  intros Hnone out.
  pose proof (exporter_run_cases w a relation files) as H. simpl in H.
  fold out in H. rewrite Hnone in H.
  split_and!.
  - destruct (connect_fault w); [by destruct H|].
    destruct (faults w 0 OpSelect); by destruct H.
  - destruct (connect_fault w); [by destruct H|].
    destruct (faults w 0 OpSelect); [by destruct H|]. by destruct H as (_ & ? & _).
  - intros st. destruct (render_rows_spec (select_ordered relation) st)
      as (recs & -> & _).
    unfold rendered in Hnone. by rewrite Hnone.
  - intros Hc Hs. rewrite Hc, Hs in H. by destruct H as (_ & _ & ?).
Qed.

(** C6: zero rows.  When no row of the relation renders, in particular
    when the relation is empty, the run exits with status 1 and the
    output disk is left exactly as it was: no file is created and none
    is changed.  When the query itself went through, the log says that
    no valid rows were generated. *)
Theorem no_rows_no_file w a relation files :
  rendered relation = [] ->
  let out := Exporter.run w a relation files in
  fst out = 1%Z
  /\ disk (snd out) = files
  /\ (forall st, fst (Exporter.render_rows (select_ordered relation) st) = Ok [])
  /\ (connect_fault w = None -> faults w 0 OpSelect = None ->
      LogRecord ERROR "An error occurred: No valid rows were generated"
      ∈ log (snd out))
  /\ rendered [] = [].
Proof.
  intros Hnone out.
  destruct (zero_rows_outcome w a relation files Hnone) as (H1 & H2 & H3 & H4).
  by split_and!.
Qed.

Lemma rendered_all_null relation :
  (forall r, r ∈ relation -> fst r = None \/ snd r = None) ->
  rendered relation = [].
Proof.
  intros Hnull. destruct (rendered relation) as [|[artist song] ts] eqn:Hr; [done|].
  assert (Hin : (artist, song) ∈ rendered relation) by (rewrite Hr; by left).
  apply rendered_elem in Hin. by destruct (Hnull _ Hin).
Qed.

(** C9: rows with a NULL.  The importer stores NULL for a field that is
    absent from an entry.  Building the table row of a fetched row whose
    artist or song is NULL fails: the result is the empty string and
    one error-level record is logged, so the row is left out of the
    table; a relation in which every row holds a NULL renders nothing,
    and the exporter exits with status 1 without touching the output. *)
Theorem null_rows_do_not_render w a relation files :
  (forall artist song st,
     artist = None \/ song = None ->
     exists msg,
       Exporter.create_table_row artist song st
       = (Ok "", add_log (LogRecord ERROR msg) st))
  /\ (forall artist song,
        (artist, song) ∈ rendered relation ->
        (Some song, Some artist) ∈ relation)
  /\ ((forall r, r ∈ relation -> fst r = None \/ snd r = None) ->
      let out := Exporter.run w a relation files in
      (forall st, fst (Exporter.render_rows (select_ordered relation) st) = Ok [])
      /\ fst out = 1%Z /\ disk (snd out) = files)
  /\ (forall s members st,
        dict_lookup "song" members = Some (JStr s) ->
        dict_lookup "artist" members = None ->
        faults w (length (trace (db st))) (OpInsert (Some s, None)) = None ->
        (Some s, None) ∉ visible (db st) ->
        exists recs d,
          Importer.insert_entry w (JObj members) st
          = (Ok tt, set_db d (add_logs recs st))
          /\ pending d = pending (db st) ++ [(Some s, None)]).
Proof.
  split_and!.
  - apply create_table_row_null.
  - intros artist song. apply rendered_elem.
  - intros Hnull out.
    pose proof (rendered_all_null relation Hnull) as Hnone.
    destruct (zero_rows_outcome w a relation files Hnone) as (H1 & H2 & H3 & _).
    by split_and!.
  - intros s members st Hs Ha Hf Hnew.
    destruct (insert_entry_object w members st) as [recs ->].
    eexists recs, _. split; [done|].
    simpl. rewrite Hs, Ha. simpl. unfold insert, violates_unique.
    unfold cell in *. rewrite Hf. by rewrite bool_decide_eq_false_2.
Qed.

(** ** The properties on the sample inputs *)

Lemma importer_deduplicates_witness :
  NoDup (@nil row)
  /\ connect_fault Examples.sample_world = None
  /\ healthy (faults Examples.sample_world)
  /\ (let final :=
        committed (db (snd (Importer.run Examples.sample_world
                              Examples.sample_args []))) in
      let seen :=
        encountered Examples.sample_world
          (Importer.expand Examples.sample_world
             (Importer.files Examples.sample_args)) in
      final = [ (Some "One More Time", Some "Daft Punk");
                (Some "Dancing Queen", Some "Abba");
                (Some "Waterloo", Some "Abba") ]
      /\ NoDup final
      /\ (forall r, r ∈ seen -> length (filter (fun x => x = r) final) = 1)
      /\ (forall r, r ∈ final <-> r ∈ [] \/ r ∈ seen)).
Proof.
  assert (H0 : NoDup (@nil row)) by constructor.
  assert (Hh : healthy (faults Examples.sample_world)) by (intros n op; reflexivity).
  destruct (importer_deduplicates Examples.sample_world Examples.sample_args [] H0)
    as (H1 & H2 & _).
  destruct (H2 eq_refl Hh) as [H3 H4].
  split; [exact H0|]. split; [reflexivity|]. split; [exact Hh|].
  split; [vm_compute; reflexivity|]. split; [exact H1|]. split; [exact H3|exact H4].
Defined.

Lemma importer_idempotent_witness :
  connect_fault Examples.sample_world = None
  /\ healthy (faults Examples.sample_world)
  /\ (let first := Importer.run Examples.sample_world Examples.sample_args [] in
      let second := Importer.run Examples.sample_world Examples.sample_args
                      (committed (db (snd first))) in
      committed (db (snd second)) = committed (db (snd first))
      /\ fst first = 0%Z /\ fst second = 0%Z).
Proof.
  assert (Hh : healthy (faults Examples.sample_world)) by (intros n op; reflexivity).
  destruct (importer_idempotent Examples.sample_world Examples.sample_args []
              eq_refl Hh) as (H1 & H2 & H3 & _).
  split; [reflexivity|]. split; [exact Hh|].
  split; [exact H1|]. split; [exact H2|exact H3].
Defined.

Lemma parse_fault_contained_witness :
  read_file Examples.sample_world "broken.json"
  = NotJson "Expecting value: line 1 column 1 (char 0)"
  /\ "broken.json" ∈ Importer.expand Examples.sample_world
                       (Importer.files Examples.sample_args)
  /\ connect_fault Examples.sample_world = None
  /\ (forall n, faults Examples.sample_world n OpCommit = None)
  /\ (let out := Importer.run Examples.sample_world Examples.sample_args [] in
      parse_error_record "broken.json" "Expecting value: line 1 column 1 (char 0)"
      ∈ shown WARNING (log (snd out))
      /\ processing_record "b.json" ∈ log (snd out)
      /\ fst out = 0%Z).
Proof.
  assert (Hin : "broken.json" ∈ Importer.expand Examples.sample_world
                                 (Importer.files Examples.sample_args)).
  { vm_compute. apply list_elem_of_further, list_elem_of_here. }
  destruct (parse_fault_contained Examples.sample_world Examples.sample_args []
              "broken.json" _ eq_refl Hin) as (_ & _ & H & _).
  destruct (H eq_refl (fun _ => eq_refl)) as (H1 & H2 & _ & H4).
  split; [reflexivity|]. split; [exact Hin|]. split; [reflexivity|].
  split; [intros n; reflexivity|]. split; [exact (H1 WARNING)|]. split; [|exact H4].
  apply H2. vm_compute.
  apply list_elem_of_further, list_elem_of_further, list_elem_of_further,
    list_elem_of_here.
Defined.

Lemma unopenable_file_skipped_witness :
  read_file Examples.sample_world "missing.json"
  = Unopenable "[Errno 2] No such file or directory"
  /\ "missing.json" ∈ Importer.expand Examples.sample_world
                        (Importer.files Examples.sample_args)
  /\ connect_fault Examples.sample_world = None
  /\ (forall n, faults Examples.sample_world n OpCommit = None)
  /\ (let out := Importer.run Examples.sample_world Examples.sample_args [] in
      file_error_record "missing.json" "[Errno 2] No such file or directory"
      ∈ shown WARNING (log (snd out))
      /\ processing_record "b.json" ∈ log (snd out)
      /\ fst out = 0%Z).
Proof.
  assert (Hin : "missing.json" ∈ Importer.expand Examples.sample_world
                                  (Importer.files Examples.sample_args)).
  { vm_compute. apply list_elem_of_further, list_elem_of_further, list_elem_of_here. }
  destruct (unopenable_file_skipped Examples.sample_world Examples.sample_args []
              "missing.json" _ eq_refl Hin) as (_ & _ & H & _).
  destruct (H eq_refl (fun _ => eq_refl)) as (H1 & H2 & _ & H4).
  split; [reflexivity|]. split; [exact Hin|]. split; [reflexivity|].
  split; [intros n; reflexivity|]. split; [exact (H1 WARNING)|]. split; [|exact H4].
  apply H2. vm_compute.
  apply list_elem_of_further, list_elem_of_further, list_elem_of_further,
    list_elem_of_here.
Defined.

Lemma one_commit_per_file_witness :
  connect_fault (Examples.world_with Examples.failing_commit) = None
  /\ connect_fault Examples.sample_world = None
  /\ (forall n, faults Examples.sample_world n OpCommit = None)
  /\ trace (db (snd (Importer.run Examples.sample_world
                       (Examples.import_args ["a.json"; "b.json"]) [])))
     = [ OpInsert (Some "One More Time", Some "Daft Punk");
         OpInsert (Some "Dancing Queen", Some "Abba");
         OpInsert (Some "One More Time", Some "Daft Punk");
         OpCommit;
         OpInsert (Some "Dancing Queen", Some "Abba");
         OpInsert (Some "Waterloo", Some "Abba");
         OpCommit ]
  /\ (let w := Examples.world_with Examples.failing_commit in
      let final :=
        db (snd (Importer.run w (Examples.import_args ["a.json"; "b.json"]) [])) in
      trace final
      = [ OpInsert (Some "One More Time", Some "Daft Punk");
          OpInsert (Some "Dancing Queen", Some "Abba");
          OpInsert (Some "One More Time", Some "Daft Punk");
          OpCommit;
          OpInsert (Some "Dancing Queen", Some "Abba");
          OpInsert (Some "Waterloo", Some "Abba");
          OpCommit; OpRollback ]
      /\ committed final
         = committed (db (snd (Importer.run w (Examples.import_args ["a.json"]) [])))
      /\ pending final = []).
Proof.
  split; [reflexivity|]. split; [reflexivity|]. split; [intros n; reflexivity|].
  split.
  - destruct (one_commit_per_file Examples.sample_world
                (Examples.import_args ["a.json"; "b.json"]) [] eq_refl) as [H _].
    rewrite (H (fun _ => eq_refl)). vm_compute. reflexivity.
  - intros w final.
    destruct (one_commit_per_file w (Examples.import_args ["a.json"; "b.json"])
                [] eq_refl) as [_ H].
    destruct (H ["a.json"] "b.json" [] (Examples.import_args ["a.json"])
                Examples.lost_connection eq_refl eq_refl) as (H1 & H2 & H3).
    + intros n Hn. vm_compute in Hn.
      do 4 (destruct n as [|n]; [reflexivity|]). lia.
    + reflexivity.
    + split; [|split; [exact H2|exact H3]].
      fold final in H1. rewrite H1. vm_compute. reflexivity.
Defined.

Lemma no_rows_no_file_witness :
  rendered [] = []
  /\ (let files : gmap string string := {["hot100.html" := "last week's page"]} in
      let out := Exporter.run Examples.sample_world Examples.export_args [] files in
      fst out = 1%Z /\ disk (snd out) = files
      /\ LogRecord ERROR "An error occurred: No valid rows were generated"
         ∈ log (snd out)).
Proof.
  split; [reflexivity|]. intros files out.
  destruct (no_rows_no_file Examples.sample_world Examples.export_args [] files
              eq_refl) as (H1 & H2 & _ & H4 & _).
  split; [exact H1|]. split; [exact H2|]. exact (H4 eq_refl eq_refl).
Defined.

Lemma rows_sorted_by_artist_then_song_witness :
  connect_fault Examples.sample_world = None
  /\ faults Examples.sample_world 0 OpSelect = None
  /\ write_fault Examples.sample_world (Exporter.output Examples.export_args) = None
  /\ rendered Examples.two_tracks <> []
  /\ (let out := Exporter.run Examples.sample_world Examples.export_args
                   Examples.two_tracks ∅ in
      let tracks := rendered Examples.two_tracks in
      StronglySorted artist_then_song tracks
      /\ fst out = 0%Z
      /\ disk (snd out) !! Exporter.output Examples.export_args
         = Some (document
             (join nl (map (fun t => row_html (fst t) (snd t)) tracks)))).
Proof.
  assert (Hne : rendered Examples.two_tracks <> []) by (vm_compute; discriminate).
  destruct (rows_sorted_by_artist_then_song Examples.sample_world
              Examples.export_args Examples.two_tracks ∅)
    as (H1 & _ & _ & H4 & _).
  destruct (H4 eq_refl eq_refl eq_refl Hne) as [H5 H6].
  split; [reflexivity|]. split; [reflexivity|]. split; [reflexivity|].
  split; [exact Hne|]. split; [exact H1|]. split; [exact H5|exact H6].
Defined.

Lemma null_rows_do_not_render_witness :
  (forall r, r ∈ Examples.null_rows -> fst r = None \/ snd r = None)
  /\ (let out := Exporter.run Examples.sample_world Examples.export_args
                   Examples.null_rows ∅ in
      fst out = 1%Z /\ disk (snd out) = ∅)
  /\ (exists msg,
        Exporter.create_table_row (Some "Abba") None (boot [] ∅)
        = (Ok "", add_log (LogRecord ERROR msg) (boot [] ∅))).
Proof.
  assert (Hnull : forall r, r ∈ Examples.null_rows -> fst r = None \/ snd r = None).
  { intros r Hr. unfold Examples.null_rows in Hr.
    apply elem_of_cons in Hr as [->|Hr]; [by left|].
    apply list_elem_of_singleton in Hr as ->. by right. }
  destruct (null_rows_do_not_render Examples.sample_world Examples.export_args
              Examples.null_rows ∅) as (H1 & _ & H3 & _).
  destruct (H3 Hnull) as (_ & H4 & H5).
  split; [exact Hnull|]. split; [split; [exact H4|exact H5]|].
  apply H1. by right.
Defined.

(** * Further properties of the importer *)

Lemma field_str (v : json) (c : cell) :
  to_cell v = Some c -> Importer.py_str v = cell_str c.
Proof. destruct v; simpl; by intros [= <-]. Qed.

(** X1: A server error on one INSERT costs that entry and nothing else: the
    entry is skipped with the one record of the matching handler (debug
    for a duplicate key, error otherwise), no row is stored, and the
    loop goes on. *)
Theorem insert_fault_skips_entry w members s a e st :
  to_cell (from_option id JNull (dict_lookup "song" members)) = Some s ->
  to_cell (from_option id JNull (dict_lookup "artist" members)) = Some a ->
  faults w (length (trace (db st))) (OpInsert (s, a)) = Some e ->
  Importer.insert_entry w (JObj members) st
  = (Ok tt,
     set_db (received (OpInsert (s, a)) (db st))
            (add_log (insert_error_record e s a) st)).
Proof.
  intros Hs Ha Hf.
  unfold Importer.insert_entry, Importer.execute_insert. munfold. simpl.
  rewrite Hs, Ha. unfold insert. unfold cell in *. rewrite Hf. simpl.
  unfold insert_error_record.
  destruct (integrity e); [destruct (errno e =? 1062)%Z|]; try done.
  by rewrite (field_str _ _ Hs), (field_str _ _ Ha).
Qed.

Lemma insert_fault_skips_entry_witness :
  let w := Examples.world_with Examples.failing_insert in
  let st := boot [] ∅ in
  Importer.insert_entry w (Examples.entry "Waterloo" "Abba") st
  = (Ok tt,
     set_db (received (OpInsert (Some "Waterloo", Some "Abba")) (db st))
       (add_log (LogRecord ERROR
          "Error inserting record: 1406 (22001): Data too long for column 'song' at row 1")
          st)).
Proof.
  intros w st.
  exact (insert_fault_skips_entry w
           [("song", JStr "Waterloo"); ("artist", JStr "Abba")]
           (Some "Waterloo") (Some "Abba")
           Examples.data_too_long st eq_refl eq_refl eq_refl).
Defined.

Lemma insert_entry_no_get w entry st :
  ~ is_object entry ->
  Importer.insert_entry w entry st = (Raise (AttributeError (no_get entry)), st).
Proof.
  intros Hno. unfold Importer.insert_entry. munfold.
  destruct entry; simpl; try done. destruct Hno. by eexists.
Qed.

Lemma entry_rows_objects_then before bad after :
  Forall is_object before -> ~ is_object bad ->
  entry_rows (before ++ bad :: after) = entry_rows before.
Proof.
  intros Hobj Hbad. induction Hobj as [|entry rest [members ->] _ IH].
  - simpl. destruct bad; try done. destruct Hbad. by eexists.
  - change ((JObj members :: rest) ++ bad :: after)
      with (JObj members :: (rest ++ bad :: after)).
    rewrite (entry_rows_object members (rest ++ bad :: after)), IH.
    by rewrite (entry_rows_object members rest).
Qed.

Lemma insert_entries_stray w before bad after st :
  Forall is_object before -> ~ is_object bad ->
  exists recs,
    Importer.insert_entries w (before ++ bad :: after) st
    = (Raise (AttributeError (no_get bad)),
       set_db (run_inserts (faults w) (entry_rows before) (db st))
              (add_logs recs st)).
Proof.
  intros Hobj Hbad. revert st.
  induction Hobj as [|entry rest [members ->] _ IH]; intros st.
  - exists []. simpl. munfold. rewrite insert_entry_no_get by done.
    by rewrite add_logs_nil.
  - change ((JObj members :: rest) ++ bad :: after)
      with (JObj members :: (rest ++ bad :: after)).
    simpl Importer.insert_entries. munfold.
    destruct (insert_entry_object w members st) as [recs1 ->].
    destruct (IH (set_db (run_inserts (faults w) (entry_rows [JObj members])
                            (db st)) (add_logs recs1 st))) as [recs2 ->].
    exists (recs1 ++ recs2).
    rewrite (entry_rows_object members rest), run_inserts_app. f_equal.
    apply state_chain.
Qed.

(** X2: An entry that is not an object ends the file: the entries before it
    are sent as usual and stay in the transaction, the entries after it
    are never looked at, and the file is closed with one error record
    naming the missing [get]. *)
Theorem stray_entry_ends_file w f members before bad after st :
  read_file w f = Document (JObj members) ->
  dict_lookup "data" members = Some (JArr (before ++ bad :: after)) ->
  Forall is_object before -> ~ is_object bad ->
  file_rows w f = entry_rows before
  /\ exists recs,
       Importer.process_json_file w f st
       = (Ok tt,
          set_db (run_inserts (faults w) (entry_rows before) (db st))
                 (add_logs (recs ++ [file_error_record f (no_get bad)]) st)).
Proof.
  intros Hread Hdata Hobj Hbad. split.
  - unfold file_rows, document_rows. rewrite Hread. simpl. rewrite Hdata. simpl.
    by apply entry_rows_objects_then.
  - unfold Importer.process_json_file, Importer.load. munfold.
    rewrite Hread. simpl. rewrite Hdata. simpl.
    destruct (insert_entries_stray w before bad after st Hobj Hbad) as [recs ->].
    exists recs. simpl. f_equal.
    unfold add_log, set_db, add_logs. simpl. by rewrite app_assoc.
Qed.

Lemma stray_entry_ends_file_witness :
  let w := Examples.stray_world in
  let before := [Examples.entry "Waterloo" "Abba"] in
  read_file w "stray.json" = Document Examples.chart_with_stray
  /\ Forall is_object before
  /\ ~ is_object (JStr "stray")
  /\ file_rows w "stray.json" = [(Some "Waterloo", Some "Abba")]
  /\ committed (db (snd (Importer.run w (Examples.import_args ["stray.json"]) [])))
     = [(Some "Waterloo", Some "Abba")].
Proof.
  intros w before.
  assert (Hobj : Forall is_object before).
  { constructor; [by eexists|constructor]. }
  assert (Hbad : ~ is_object (JStr "stray")) by (intros [m Hm]; discriminate).
  destruct (stray_entry_ends_file w "stray.json" _ before (JStr "stray")
              [Examples.entry "Fernando" "Abba"] (boot [] ∅)
              eq_refl eq_refl Hobj Hbad) as [H1 _].
  split; [reflexivity|]. split; [exact Hobj|]. split; [exact Hbad|].
  split; [exact H1|]. vm_compute. reflexivity.
Defined.

(** X3: A document without a [data] member, or with an empty one, changes
    nothing at all: no statement, no record. *)
Theorem file_without_entries_is_noop w f members st :
  read_file w f = Document (JObj members) ->
  dict_lookup "data" members = None \/ dict_lookup "data" members = Some (JArr []) ->
  Importer.process_json_file w f st = (Ok tt, st).
Proof.
  intros Hread Hdata.
  unfold Importer.process_json_file, Importer.load. munfold.
  rewrite Hread. simpl. by destruct Hdata as [-> | ->].
Qed.

Lemma file_without_entries_is_noop_witness :
  read_file Examples.stray_world "empty.json" = Document (JObj [])
  /\ dict_lookup "data" [] = None
  /\ Importer.process_json_file Examples.stray_world "empty.json" (boot [] ∅)
     = (Ok tt, boot [] ∅).
Proof.
  split; [reflexivity|]. split; [reflexivity|].
  apply (file_without_entries_is_noop Examples.stray_world "empty.json" []);
    [reflexivity|by left].
Defined.

(** X4: A document that parses but is not an object, or whose [data] is
    null, is skipped like an unreadable file: one error record, no
    statement. *)
Theorem document_of_wrong_shape_skipped w f j st :
  read_file w f = Document j ->
  (~ is_object j
   -> Importer.process_json_file w f st
      = (Ok tt, add_log (file_error_record f (no_get j)) st))
  /\ (forall members, j = JObj members ->
        dict_lookup "data" members = Some JNull ->
        Importer.process_json_file w f st
        = (Ok tt, add_log (file_error_record f
                    "'NoneType' object is not iterable") st))
  /\ (~ is_object j \/ (exists members, j = JObj members
                        /\ dict_lookup "data" members = Some JNull)
      -> file_rows w f = []).
Proof.
  intros Hread. split_and!.
  - intros Hno. unfold Importer.process_json_file, Importer.load. munfold.
    rewrite Hread. destruct j; simpl; try done. destruct Hno. by eexists.
  - intros members -> Hdata.
    unfold Importer.process_json_file, Importer.load. munfold.
    rewrite Hread. simpl. by rewrite Hdata.
  - intros Hcase. unfold file_rows, document_rows. rewrite Hread.
    destruct Hcase as [Hno|(members & -> & Hdata)].
    + destruct j; simpl; try done. destruct Hno. by eexists.
    + simpl. by rewrite Hdata.
Qed.

Lemma document_of_wrong_shape_skipped_witness :
  read_file Examples.stray_world "list.json" = Document (JArr [])
  /\ ~ is_object (JArr [])
  /\ Importer.process_json_file Examples.stray_world "list.json" (boot [] ∅)
     = (Ok tt,
        add_log (LogRecord ERROR
          "Error processing file list.json: 'list' object has no attribute 'get'")
          (boot [] ∅)).
Proof.
  assert (Hno : ~ is_object (JArr [])) by (intros [m Hm]; discriminate).
  destruct (document_of_wrong_shape_skipped Examples.stray_world "list.json"
              (JArr []) (boot [] ∅) eq_refl) as [H _].
  split; [reflexivity|]. split; [exact Hno|]. exact (H Hno).
Defined.

Lemma run_inserts_connected fp rows d :
  connected (run_inserts fp rows d) = connected d.
Proof.
  revert d. induction rows as [|r rows IH]; intros d; [done|].
  simpl. rewrite IH. unfold insert. by repeat case_match.
Qed.

(** X5: Whatever the file and whatever the server answers,
    [process_json_file] returns normally; it only adds INSERT
    statements and log records: nothing is committed or rolled back,
    and the connection, the log level and the output disk are left
    alone. *)
Theorem process_json_file_contained w f st :
  let out := Importer.process_json_file w f st in
  fst out = Ok tt
  /\ committed (db (snd out)) = committed (db st)
  /\ trace (db (snd out)) = trace (db st) ++ map OpInsert (file_rows w f)
  /\ connected (db (snd out)) = connected (db st)
  /\ (exists recs, log (snd out) = log st ++ recs)
  /\ disk (snd out) = disk st
  /\ root_level (snd out) = root_level st.
Proof.
  intros out. subst out.
  destruct (process_json_file_spec w f st) as (recs & -> & _). simpl.
  rewrite run_inserts_committed, run_inserts_trace, run_inserts_connected.
  split_and!; try done. by exists recs.
Qed.

(** X6: When the connection is refused the importer logs that one error and
    exits with status 1: no file is taken up, no statement is sent and
    the relation is as it was. *)
Theorem importer_connection_refused w a relation e :
  connect_fault w = Some e ->
  Importer.run w a relation
  = (1%Z,
     {| db := {| committed := relation; pending := []; result_set := [];
                 trace := []; connected := false |};
        root_level := configured_level (Importer.verbose a) (Importer.debug a);
        log := [LogRecord ERROR ("Error connecting to database: " +:+ errmsg e)];
        disk := ∅ |}).
Proof.
  intros Hc. unfold Importer.run. by rewrite (main_refused w a relation e Hc).
Qed.

Lemma importer_connection_refused_witness :
  connect_fault Examples.refusing_world = Some Examples.access_denied
  /\ fst (Importer.run Examples.refusing_world Examples.sample_args
            Examples.two_tracks) = 1%Z
  /\ db (snd (Importer.run Examples.refusing_world Examples.sample_args
                Examples.two_tracks))
     = {| committed := Examples.two_tracks; pending := []; result_set := [];
          trace := []; connected := false |}.
Proof.
  split; [reflexivity|].
  by rewrite (importer_connection_refused Examples.refusing_world
                Examples.sample_args Examples.two_tracks Examples.access_denied
                eq_refl).
Defined.

Lemma run_files_extends fp batches d :
  committed d `prefix_of` committed (snd (run_files fp batches d)).
Proof.
  revert d. induction batches as [|rows rest IH]; intros d; [done|].
  simpl. unfold commit. destruct (fp _ OpCommit); simpl.
  - by rewrite run_inserts_committed.
  - etrans; [|apply IH]. simpl. rewrite run_inserts_committed.
    by apply prefix_app_r.
Qed.

(** X7: On every path the importer ends with the connection closed and no
    transaction open, and it never removes or reorders a row: the
    relation it started from is a prefix of the relation it leaves. *)
Theorem importer_keeps_rows_and_closes w a relation :
  let final := db (snd (Importer.run w a relation)) in
  relation `prefix_of` committed final
  /\ pending final = []
  /\ connected final = false.
Proof.
  intros final. subst final. unfold Importer.run.
  destruct (connect_fault w) as [e|] eqn:Hc.
  - by rewrite (main_refused w a relation e Hc).
  - destruct (main_connected w a relation Hc) as (recs & -> & _). simpl.
    rewrite import_session_committed. split.
    + apply (run_files_extends (faults w) _
               {| committed := relation; pending := []; result_set := [];
                  trace := []; connected := true |}).
    + unfold import_session. destruct (run_files _ _ _) as [[[]|e] d]; [done|].
      by destruct (rollback (faults w) d).
Qed.

Lemma run_files_raised fp batches d e d' :
  run_files fp batches d = (Raise e, d') ->
  exists sent m,
    trace d' = sent ++ [OpCommit]
    /\ fp (length sent) OpCommit = Some m
    /\ e = DbError m.
Proof.
  revert d. induction batches as [|rows rest IH]; intros d; simpl; [done|].
  unfold commit at 1.
  destruct (fp (length (trace (run_inserts fp rows d))) OpCommit) as [m|] eqn:Hf.
  - intros [= <- <-]. by exists (trace (run_inserts fp rows d)), m.
  - apply IH.
Qed.

(** X8: The exit status of the importer is 0 or 1.  With the connection
    made it is 1 only when a commit raised and the rollback that
    followed raised as well: these are then the last two statements of
    the session. *)
Theorem importer_exit_status w a relation :
  let out := Importer.run w a relation in
  (fst out = 0%Z \/ fst out = 1%Z)
  /\ (connect_fault w = None -> fst out <> 0%Z ->
      exists sent m1 m2,
        trace (db (snd out)) = sent ++ [OpCommit; OpRollback]
        /\ faults w (length sent) OpCommit = Some m1
        /\ faults w (S (length sent)) OpRollback = Some m2).
Proof.
  intros out. subst out. unfold Importer.run.
  destruct (connect_fault w) as [e|] eqn:Hc.
  - rewrite (main_refused w a relation e Hc). split; [by right|done].
  - destruct (main_connected w a relation Hc) as (recs & -> & _). simpl.
    unfold import_session.
    destruct (run_files _ _ _) as [[[]|e] d] eqn:Hrun; simpl.
    + split; [by left|done].
    + destruct (run_files_raised _ _ _ _ _ Hrun) as (sent & m1 & Ht & Hf & ->).
      unfold rollback. rewrite Ht.
      replace (length (sent ++ [OpCommit])) with (S (length sent))
        by (rewrite length_app; simpl; lia).
      destruct (faults w (S (length sent)) OpRollback) as [m2|] eqn:Hr; simpl.
      * split; [by right|]. intros _ _. exists sent, m1, m2.
        rewrite Ht, <- app_assoc. done.
      * split; [by left|done].
Qed.

Lemma importer_exit_status_witness :
  let w := Examples.world_with Examples.failing_transactions in
  let out := Importer.run w (Examples.import_args ["a.json"]) [] in
  connect_fault w = None
  /\ fst out = 1%Z
  /\ committed (db (snd out)) = []
  /\ exists sent m1 m2,
       trace (db (snd out)) = sent ++ [OpCommit; OpRollback]
       /\ faults w (length sent) OpCommit = Some m1
       /\ faults w (S (length sent)) OpRollback = Some m2.
Proof.
  intros w out.
  assert (H1 : fst out = 1%Z) by (vm_compute; reflexivity).
  destruct (importer_exit_status w (Examples.import_args ["a.json"]) [])
    as [_ H].
  split; [reflexivity|]. split; [exact H1|]. split; [vm_compute; reflexivity|].
  apply H; [reflexivity|]. fold out. rewrite H1. discriminate.
Defined.

(** X9: The loop over the files composes: taking up a list of files is
    taking up its first part and then, in the same session, the rest;
    a commit that raises in the first part keeps the rest from
    starting. *)
Theorem process_files_app w files1 files2 st :
  Importer.process_files w (files1 ++ files2) st
  = match Importer.process_files w files1 st with
    | (Ok _, st') => Importer.process_files w files2 st'
    | (Raise e, st') => (Raise e, st')
    end.
Proof.
  revert st. induction files1 as [|f rest IH]; intros st; [done|].
  change ((f :: rest) ++ files2) with (f :: (rest ++ files2)).
  simpl Importer.process_files. munfold.
  destruct (Importer.process_json_file w f _) as [[[]|e] st1]; [|done].
  destruct (commit (faults w) (db st1)) as [[[]|e] d']; [|done].
  apply IH.
Qed.

Lemma insert_entry_quiet w entry st :
  chart_entry entry -> healthy (faults w) ->
  exists msg,
    Importer.insert_entry w entry st
    = (Ok tt,
       set_db (snd (insert (faults w) (entry_pair entry) (db st)))
              (add_log (LogRecord DEBUG msg) st)).
Proof.
  intros [Hs Ha] Hh. destruct entry as [| | |members]; try by destruct Hs.
  unfold entry_pair. simpl in *. destruct Hs as [s Hs], Ha as [a' Ha].
  rewrite Hs, Ha. simpl.
  unfold Importer.insert_entry, Importer.execute_insert. munfold. simpl.
  rewrite Hs, Ha. unfold insert. unfold cell in *. rewrite !Hh.
  destruct (violates_unique (s, a') (visible (db st))); simpl; by eexists.
Qed.

Lemma insert_entries_quiet w entries st :
  Forall chart_entry entries -> healthy (faults w) ->
  exists recs,
    Importer.insert_entries w entries st
    = (Ok tt,
       set_db (run_inserts (faults w) (map entry_pair entries) (db st))
              (add_logs recs st))
    /\ Forall (fun r => lvl r = DEBUG) recs.
Proof.
  intros Hall Hh. revert st.
  induction Hall as [|entry rest Hentry _ IH]; intros st.
  - exists []. simpl. munfold. by rewrite add_logs_nil.
  - simpl Importer.insert_entries. munfold.
    destruct (insert_entry_quiet w entry st Hentry Hh) as [msg ->].
    destruct (IH (set_db (snd (insert (faults w) (entry_pair entry) (db st)))
                    (add_log (LogRecord DEBUG msg) st))) as (recs & -> & Hlv).
    exists (LogRecord DEBUG msg :: recs). split; [|by constructor].
    simpl. f_equal. unfold set_db, add_logs, add_log. simpl.
    by rewrite <- app_assoc.
Qed.

Lemma process_json_file_quiet w f st :
  chart_file w f -> healthy (faults w) ->
  exists recs,
    Importer.process_json_file w f st
    = (Ok tt,
       set_db (run_inserts (faults w) (file_rows w f) (db st)) (add_logs recs st))
    /\ Forall (fun r => lvl r = DEBUG) recs.
Proof.
  intros (members & entries & Hread & Hdata & Hall) Hh.
  unfold Importer.process_json_file, Importer.load, file_rows, document_rows.
  munfold. rewrite Hread. simpl. rewrite Hdata. simpl.
  destruct (insert_entries_quiet w entries st Hall Hh) as (recs & -> & Hlv).
  exists recs. by rewrite entry_rows_chart.
Qed.

Lemma process_files_quiet w json_files st :
  Forall (chart_file w) json_files -> healthy (faults w) ->
  exists recs d,
    Importer.process_files w json_files st
    = (Ok tt, set_db d (add_logs recs st))
    /\ Forall routine recs.
Proof.
  intros Hall Hh. revert st.
  induction Hall as [|f rest Hf _ IH]; intros st.
  - exists [], (db st). simpl. munfold. by rewrite add_logs_nil.
  - simpl Importer.process_files. munfold.
    destruct (process_json_file_quiet w f
                (add_log (LogRecord INFO ("Processing file: " +:+ f)) st) Hf Hh)
      as (recs1 & -> & Hlv1).
    simpl db. rewrite commit_ok by apply Hh.
    match goal with
    | |- context [Importer.process_files w rest ?st1] =>
        destruct (IH st1) as (recs2 & d & -> & Hlv2)
    end.
    exists (LogRecord INFO ("Processing file: " +:+ f) :: recs1 ++ recs2), d.
    split.
    + f_equal. unfold set_db, add_logs, add_log. simpl. f_equal.
      by rewrite <- !app_assoc.
    + constructor; [by right|]. apply Forall_app. split; [|done].
      eapply Forall_impl; [exact Hlv1|]. intros r Hr. by left.
Qed.

Lemma shown_routine records :
  Forall routine records -> shown (configured_level false false) records = [].
Proof.
  induction 1 as [|r rest Hr _ IH]; [done|].
  unfold shown in *. rewrite filter_cons_False; [done|].
  destruct r as [l m]. by destruct Hr as [Hr|Hr]; simpl in Hr; subst l.
Qed.

(** X10: A clean import is silent: when the connection is made, the server
    raises nothing but duplicate-key errors and every file is of the
    input format, the run exits with status 0 and logs nothing above
    info level, so that without [--verbose] or [--debug] nothing is
    shown at all. *)
Theorem clean_import_is_silent w a relation :
  connect_fault w = None -> healthy (faults w) ->
  Forall (chart_file w) (Importer.expand w (Importer.files a)) ->
  let out := Importer.run w a relation in
  fst out = 0%Z
  /\ Forall routine (log (snd out))
  /\ shown (configured_level false false) (log (snd out)) = []
  /\ LogRecord INFO "Processing completed successfully" ∈ log (snd out).
Proof.
  intros Hc Hh Hall out.
  assert (H : fst out = 0%Z /\ Forall routine (log (snd out))
              /\ LogRecord INFO "Processing completed successfully"
                 ∈ log (snd out)).
  { subst out. unfold Importer.run, Importer.main, get_db_connection,
      setup_logging. rewrite Hc. munfold. simpl.
    match goal with
    | |- context [Importer.process_files w ?l ?st] =>
        destruct (process_files_quiet w l st Hall Hh) as (recs & d & -> & Hlv)
    end.
    simpl. split_and!; [done| |].
    - constructor; [by right|]. apply Forall_app. split; [done|].
      constructor; [by right|constructor].
    - apply elem_of_cons. right. apply elem_of_app. right.
      by apply list_elem_of_singleton. }
  destruct H as (H1 & H2 & H3). split_and!; try done.
  by apply shown_routine.
Qed.

Lemma clean_import_is_silent_witness :
  let w := Examples.sample_world in
  let a := Examples.import_args ["a.json"; "b.json"] in
  connect_fault w = None
  /\ healthy (faults w)
  /\ Forall (chart_file w) (Importer.expand w (Importer.files a))
  /\ fst (Importer.run w a []) = 0%Z
  /\ shown (configured_level false false) (log (snd (Importer.run w a []))) = [].
Proof.
  intros w a.
  assert (Hh : healthy (faults w)) by (intros n op; reflexivity).
  assert (Hentry : forall s t, chart_entry (Examples.entry s t)).
  { intros s t. split; by eexists. }
  assert (Hall : Forall (chart_file w) (Importer.expand w (Importer.files a))).
  { repeat constructor.
    - eexists _, _. split; [reflexivity|]. split; [reflexivity|].
      repeat constructor; apply Hentry.
    - eexists _, _. split; [reflexivity|]. split; [reflexivity|].
      repeat constructor; apply Hentry. }
  destruct (clean_import_is_silent w a [] eq_refl Hh Hall) as (H1 & _ & H3 & _).
  split; [reflexivity|]. split; [exact Hh|]. split; [exact Hall|].
  split; [exact H1|exact H3].
Defined.

(** * Further properties of the exporter *)

(** X11: The exporter exits with status 0 or 1, and with 0 exactly when the
    connection is made, the query goes through, at least one row
    renders and the output path can be written: the two guards around
    the template never fire. *)
Theorem exporter_succeeds_exactly_when w a relation files :
  let out := Exporter.run w a relation files in
  (fst out = 0%Z \/ fst out = 1%Z)
  /\ (fst out = 0%Z <->
      connect_fault w = None /\ faults w 0 OpSelect = None
      /\ rendered relation <> [] /\ write_fault w (Exporter.output a) = None).
Proof.
  intros out. pose proof (exporter_run_cases w a relation files) as H.
  simpl in H. fold out in H.
  destruct (connect_fault w) as [e|].
  { destruct H as [-> _]. split; [by right|]. split; [done|]. by intros [? _]. }
  destruct (faults w 0 OpSelect) as [e|].
  { destruct H as [-> _]. split; [by right|]. split; [done|].
    by intros (_ & ? & _). }
  destruct (rendered relation) as [|t ts].
  { destruct H as (-> & _). split; [by right|]. split; [done|].
    by intros (_ & _ & ? & _). }
  destruct (write_fault w (Exporter.output a)) as [msg|].
  { destruct H as [-> _]. split; [by right|]. split; [done|].
    by intros (_ & _ & _ & ?). }
  destruct H as [-> _]. split; [by left|]. done.
Qed.



Section exporter_session.

#[local] Opaque Exporter.format document join.

(** The session and the log of an exporter run, case by case. *)
Lemma exporter_run_session w a relation files :
  let out := Exporter.run w a relation files in
  let final := db (snd out) in
  committed final = relation /\ pending final = [] /\ result_set final = []
  /\ connected final = false
  /\ match connect_fault w with
     | Some e =>
         trace final = []
         /\ log (snd out)
            = [LogRecord ERROR ("Error connecting to database: " +:+ errmsg e)]
     | None =>
         trace final = [OpSelect]
         /\ match faults w 0 OpSelect with
            | Some e =>
                log (snd out)
                = [ LogRecord INFO "Successfully connected to the database";
                    LogRecord ERROR ("Database error: " +:+ errmsg e) ]
            | None =>
                rendered relation <> [] ->
                forall msg, write_fault w (Exporter.output a) = Some msg ->
                  LogRecord ERROR ("An error occurred: " +:+ msg) ∈ log (snd out)
            end
     end.
Proof.
  intros out final. subst out final.
  unfold Exporter.run, Exporter.main, get_db_connection, setup_logging.
  destruct (connect_fault w) as [e|]; [by munfold|].
  unfold Exporter.fetchall, select. munfold. simpl.
  destruct (faults w 0 OpSelect) as [e|]; [done|]. simpl.
  unfold visible. simpl. rewrite app_nil_r. fold (rendered relation).
  match goal with
  | |- context [Exporter.render_rows ?l ?st] =>
      destruct (render_rows_spec l st) as (recs & -> & Hlv & Hlen)
  end.
  fold (rendered relation).
  destruct (rendered relation) as [|t ts] eqn:Hr; simpl.
  - by destruct (Exporter.debug a).
  - rewrite format_template. simpl. unfold Exporter.write_text.
    destruct (write_fault w (Exporter.output a)) as [msg|]; simpl; [|done].
    destruct (Exporter.debug a); simpl; (split_and!; try done);
      intros _ msg' [= <-]; unfold add_log, add_logs; simpl; set_solver.
Qed.

End exporter_session.

(** X13: The exporter only reads: on every path the relation is as it was,
    no transaction is left open, the connection ends closed, and the
    only statement the server ever receives is the one query. *)
Theorem exporter_only_reads w a relation files :
  let final := db (snd (Exporter.run w a relation files)) in
  committed final = relation
  /\ pending final = []
  /\ connected final = false
  /\ (trace final = [] \/ trace final = [OpSelect]).
Proof.
  intros final.
  destruct (exporter_run_session w a relation files) as (H1 & H2 & _ & H4 & H5).
  fold final in H1, H2, H4, H5. split_and!; try done.
  destruct (connect_fault w); [left|right]; by destruct H5.
Qed.

(** X14: A query that raises is reported as a database error and nothing
    else happens: the log holds the connection record and that error,
    the exit status is 1 and no row is rendered or written. *)
Theorem query_fault_is_fatal w a relation files e :
  connect_fault w = None -> faults w 0 OpSelect = Some e ->
  let out := Exporter.run w a relation files in
  fst out = 1%Z
  /\ log (snd out)
     = [ LogRecord INFO "Successfully connected to the database";
         LogRecord ERROR ("Database error: " +:+ errmsg e) ]
  /\ disk (snd out) = files.
Proof.
  intros Hc Hs out.
  pose proof (exporter_run_cases w a relation files) as H. simpl in H.
  destruct (exporter_run_session w a relation files) as (_ & _ & _ & _ & H5).
  rewrite Hc, Hs in H, H5. fold out in H, H5.
  destruct H as [H1 H2], H5 as [_ H5]. by split_and!.
Qed.

Lemma query_fault_is_fatal_witness :
  let w := Examples.world_with Examples.failing_select in
  let out := Exporter.run w Examples.export_args Examples.two_tracks ∅ in
  connect_fault w = None
  /\ faults w 0 OpSelect = Some Examples.lost_connection
  /\ fst out = 1%Z
  /\ disk (snd out) = ∅.
Proof.
  intros w out.
  destruct (query_fault_is_fatal w Examples.export_args Examples.two_tracks ∅
              Examples.lost_connection eq_refl eq_refl) as (H1 & _ & H3).
  split; [reflexivity|]. split; [reflexivity|]. split; [exact H1|exact H3].
Defined.



(** X16: The loop over the fetched rows never raises and touches only the
    log: every fetched row gives either one table row or one error
    record, so the rows kept and the records left add up to the rows
    fetched. *)
Theorem every_row_renders_or_is_logged fetched st :
  exists table_rows recs,
    Exporter.render_rows fetched st = (Ok table_rows, add_logs recs st)
    /\ Forall (fun r => lvl r = ERROR) recs
    /\ length table_rows + length recs = length fetched
    /\ table_rows = map (fun t => row_html (fst t) (snd t))
                        (omap renderable fetched).
Proof.
  destruct (render_rows_spec fetched st) as (recs & -> & Hlv & Hlen).
  eexists _, recs. split_and!; [done|done| |done].
  rewrite length_map. lia.
Qed.



(** * Further properties of the text the exporter builds *)

Lemma all_chars_app p a b :
  all_chars p (a +:+ b) = all_chars p a && all_chars p b.
Proof.
  induction a as [|c a IH]; [done|].
  rewrite str_app_cons. simpl. by rewrite IH, andb_assoc.
Qed.

Lemma all_chars_absent p c s :
  all_chars p s = true -> p c = false -> contains c s = false.
Proof.
  intros Hall Hc. induction s as [|x s IH]; [done|].
  simpl in *. apply andb_prop in Hall as [Hx Hs]. rewrite IH by done.
  rewrite orb_false_r. apply Ascii.eqb_neq. intros ->. congruence.
Qed.

Lemma encode_byte_url_chars c : all_chars url_char (encode_byte c) = true.
Proof. each_byte c; reflexivity. Qed.

Lemma encode_query_url_chars s : all_chars url_char (encode_query s) = true.
Proof.
  induction s as [|c s IH]; [done|].
  simpl encode_query. by rewrite all_chars_app, encode_byte_url_chars, IH.
Qed.

(** X18: Whatever the site and the query, the search URL is made of letters,
    digits and the characters [_.-~:/?=+%] only: it holds no quote, no
    space, no [<], [>] or [&], so the [href] attribute it is put in can
    never be closed or split by a value. *)
Theorem search_url_is_attribute_safe info query :
  let url := Exporter.create_search_url info query in
  all_chars url_char url = true
  /\ contains "034" url = false /\ contains "'" url = false
  /\ contains " " url = false /\ contains "&" url = false
  /\ contains "<" url = false /\ contains ">" url = false.
Proof.
  intros url.
  assert (H : all_chars url_char url = true).
  { subst url. rewrite create_search_url_encode, all_chars_app.
    by rewrite encode_query_url_chars. }
  split_and!; [done|..]; by apply (all_chars_absent url_char).
Qed.






Lemma unescape_entity c rest :
  unescape_from 0 (entity c +:+ rest) = String c (unescape_from 0 rest).
Proof. each_byte c; reflexivity. Qed.

(** X20: Escaping loses nothing: reading [&amp;], [&lt;] and [&gt;] back
    gives the value, so two different values never share a cell text;
    and a value without [&], [<] and [>] is its own cell text. *)
Theorem escape_can_be_undone s :
  unescape (Exporter.escape s) = s
  /\ (forall t, Exporter.escape s = Exporter.escape t -> s = t)
  /\ (contains "&" s = false -> contains "<" s = false ->
      contains ">" s = false -> Exporter.escape s = s).
Proof.
  assert (Hback : forall u, unescape (Exporter.escape u) = u).
  { intros u. rewrite escape_each_char. unfold unescape.
    induction u as [|c u IH]; [done|].
    simpl escape_each. by rewrite unescape_entity, IH. }
  split_and!; [done| |].
  - intros t Heq. by rewrite <- (Hback s), Heq, Hback.
  - rewrite escape_each_char. induction s as [|c s IH]; [done|].
    simpl. intros [H1 H1']%orb_false_elim [H2 H2']%orb_false_elim
      [H3 H3']%orb_false_elim.
    rewrite IH by done. unfold entity. by rewrite H1, H2, H3.
Qed.

Lemma escape_can_be_undone_witness :
  contains "&" "Dancing Queen" = false
  /\ contains "<" "Dancing Queen" = false
  /\ contains ">" "Dancing Queen" = false
  /\ Exporter.escape "Dancing Queen" = "Dancing Queen"
  /\ unescape (Exporter.escape "Tom & <Jerry>") = "Tom & <Jerry>".
Proof.
  destruct (escape_can_be_undone "Dancing Queen") as (_ & _ & H).
  destruct (escape_can_be_undone "Tom & <Jerry>") as (H' & _).
  split; [reflexivity|]. split; [reflexivity|]. split; [reflexivity|].
  split; [exact (H eq_refl eq_refl eq_refl)|exact H'].
Defined.

Lemma count_char_app c a b :
  count_char c (a +:+ b) = count_char c a + count_char c b.
Proof.
  induction a as [|x a IH]; [done|].
  rewrite str_app_cons. simpl. rewrite IH. lia.
Qed.

Lemma count_char_absent c s : contains c s = false -> count_char c s = 0.
Proof.
  induction s as [|x s IH]; [done|].
  simpl. intros [-> Hs]%orb_false_elim. by rewrite IH.
Qed.

Lemma encode_query_no_gt s : contains ">" (encode_query s) = false.
Proof.
  apply (all_chars_absent url_char); [apply encode_query_url_chars|done].
Qed.

Lemma row_html_tags c artist song :
  c = "<"%char \/ c = ">"%char -> count_char c (row_html artist song) = 16.
Proof.
  intros Hc. unfold row_html, Exporter.link_cell, search_url, join.
  rewrite !count_char_app.
  assert (Hesc : forall s, count_char c (escape_each s) = 0).
  { intros s. apply count_char_absent.
    destruct (escape_each_no_markup s) as [H1 H2]. by destruct Hc as [-> | ->]. }
  assert (Henc : forall s, count_char c (encode_query s) = 0).
  { intros s. apply count_char_absent.
    destruct Hc as [-> | ->]; [apply encode_query_no_lt|apply encode_query_no_gt]. }
  rewrite !Hesc, !Henc. by destruct Hc as [-> | ->].
Qed.

(** X21: A rendered row holds sixteen [<] and sixteen [>], those of its own
    tags, whatever the artist and the song are: no value adds a tag
    anywhere in the row, in a cell or in a link. *)
Theorem row_markup_is_fixed artist song st :
  exists row,
    Exporter.create_table_row (Some artist) (Some song) st = (Ok row, st)
    /\ count_char "<" row = 16
    /\ count_char ">" row = 16.
Proof.
  exists (row_html artist song). split_and!.
  - apply create_table_row_rendered.
  - apply row_html_tags. by left.
  - apply row_html_tags. by right.
Qed.

Lemma document_parts table_rows :
  document table_rows = page_head +:+ table_rows +:+ page_tail.
Proof. vm_compute. reflexivity. Qed.

(** X22: Formatting the template never fails and takes the joined rows as
    they are: the document is one fixed text, the rows, and another
    fixed text, also when the rows hold braces. *)
Theorem template_takes_rows_verbatim table_rows :
  Exporter.format Exporter.get_html_template [("table_rows", table_rows)]
  = Ok (page_head +:+ table_rows +:+ page_tail)
  /\ truthy Exporter.get_html_template = true.
Proof.
  split; [|reflexivity].
  by rewrite format_template, document_parts.
Qed.

Lemma shown_all verbose records :
  shown (configured_level verbose true) records = records.
Proof.
  unfold shown. simpl. induction records as [|r rest IH]; [done|].
  rewrite filter_cons_True; [by rewrite IH|]. by destruct r as [[] m].
Qed.

(** X23: The verbosity flags: [--debug] shows every record, with or without
    [--verbose]; [--verbose] alone hides the debug records and no
    other; without a flag only warnings and errors are shown. *)
Theorem verbosity_flags records :
  (forall verbose, shown (configured_level verbose true) records = records)
  /\ shown (configured_level true false) records
     = filter (fun r => lvl r <> DEBUG) records
  /\ shown (configured_level false false) records
     = filter (fun r => lvl r = WARNING \/ lvl r = ERROR) records.
Proof.
  split_and!.
  - intros verbose. apply shown_all.
  - unfold shown. apply list_filter_iff. intros [[] m]; simpl; split; done.
  - unfold shown. apply list_filter_iff.
    intros [[] m]; simpl; split; try done; try (by intros [|]); auto.
Qed.

(** * Further properties of the two programs together *)

(** X24: The files the importer takes up are the arguments that are not
    directories and the [*.json] members of those that are: a directory
    is never opened as a file itself, and without a directory among
    them the arguments are taken up as given, in order. *)
Theorem expanded_files w file_args :
  (forall f, f ∈ Importer.expand w file_args <->
             (f ∈ file_args /\ isdir w f = false)
             \/ (exists d, d ∈ file_args /\ isdir w d = true
                           /\ f ∈ glob_json w d))
  /\ ((forall f, f ∈ file_args -> isdir w f = false) ->
      Importer.expand w file_args = file_args).
Proof.
  split.
  - intros f. unfold Importer.expand.
    rewrite list_elem_of_In, in_flat_map. split.
    + intros (x & Hx & Hf). apply list_elem_of_In in Hx.
      destruct (isdir w x) eqn:Hd.
      * right. exists x. split_and!; [done|done|]. by apply list_elem_of_In.
      * left. destruct Hf as [<-|[]]. by split.
    + intros [[Hf Hd]|(d & Hd & Hdir & Hf)].
      * exists f. split; [by apply list_elem_of_In|]. rewrite Hd. by left.
      * exists d. split; [by apply list_elem_of_In|]. rewrite Hdir.
        by apply list_elem_of_In.
  - induction file_args as [|x rest IH]; intros Hplain; [done|].
    unfold Importer.expand in *. simpl.
    rewrite (Hplain x) by (by left). simpl. f_equal.
    apply IH. intros f Hf. apply Hplain. by right.
Qed.

(** X25: Building a table row never raises and touches nothing but the log.
    The row is dropped, that is the empty string is returned, exactly
    when the artist or the song is NULL, and then with exactly one
    error record; a row that is kept leaves no record. *)
Theorem row_is_dropped_exactly_on_null artist song st :
  exists row recs,
    Exporter.create_table_row artist song st = (Ok row, add_logs recs st)
    /\ (row = "" <-> artist = None \/ song = None)
    /\ (row = "" -> exists msg, recs = [LogRecord ERROR msg])
    /\ (row <> "" -> recs = []).
Proof.
  assert (Hcase : (exists x y, artist = Some x /\ song = Some y)
                  \/ (artist = None \/ song = None)).
  { destruct artist, song; eauto. }
  destruct Hcase as [(x & y & -> & ->)|Hnull].
  - exists (row_html x y), []. rewrite create_table_row_rendered.
    assert (Hne : row_html x y <> "").
    { intros Heq. pose proof (row_html_truthy x y) as Ht. by rewrite Heq in Ht. }
    split_and!; try done.
    + f_equal. destruct st. unfold add_logs. simpl. by rewrite app_nil_r.
    + split; [done|]. by intros [|].
  - destruct (create_table_row_null artist song st Hnull) as [msg ->].
    exists "", [LogRecord ERROR msg]. split_and!; try done.
    intros _. by eexists.
Qed.

(** X26: When the connection is refused the exporter logs that one error and
    exits with status 1: no query is sent and the disk is as it was. *)
Theorem exporter_connection_refused w a relation files e :
  connect_fault w = Some e ->
  let out := Exporter.run w a relation files in
  fst out = 1%Z
  /\ log (snd out)
     = [LogRecord ERROR ("Error connecting to database: " +:+ errmsg e)]
  /\ trace (db (snd out)) = []
  /\ disk (snd out) = files.
Proof.
  intros Hc out.
  pose proof (exporter_run_cases w a relation files) as H. simpl in H.
  destruct (exporter_run_session w a relation files) as (_ & _ & _ & _ & H5).
  rewrite Hc in H, H5. fold out in H, H5.
  destruct H as [H1 H2], H5 as [H3 H4]. by split_and!.
Qed.

Lemma exporter_connection_refused_witness :
  let files : gmap string string := {["hot100.html" := "last week's page"]} in
  let out := Exporter.run Examples.refusing_world Examples.export_args
               Examples.two_tracks files in
  connect_fault Examples.refusing_world = Some Examples.access_denied
  /\ fst out = 1%Z
  /\ trace (db (snd out)) = []
  /\ disk (snd out) = files.
Proof.
  intros files out.
  destruct (exporter_connection_refused Examples.refusing_world
              Examples.export_args Examples.two_tracks files
              Examples.access_denied eq_refl) as (H1 & _ & H3 & H4).
  split; [reflexivity|]. split; [exact H1|]. split; [exact H3|exact H4].
Defined.

(** X27: The two programs in sequence: after an import on a healthy server a
    track is on the page exactly when its pair, with both fields
    present, was in the relation before or was encountered in the
    files; and importing the same files once more does not change the
    tracks of the page. *)
Theorem imported_tracks_reach_the_page w a relation :
  connect_fault w = None -> healthy (faults w) ->
  let stored := committed (db (snd (Importer.run w a relation))) in
  let seen := encountered w (Importer.expand w (Importer.files a)) in
  (forall artist song,
     (artist, song) ∈ rendered stored <->
     (Some song, Some artist) ∈ relation \/ (Some song, Some artist) ∈ seen)
  /\ rendered (committed (db (snd (Importer.run w a stored)))) = rendered stored.
Proof.
  intros Hc Hh stored seen.
  assert (Hstored : stored = fold_left store seen relation).
  { subst stored seen. rewrite run_committed_connected by done.
    rewrite import_session_healthy by done. simpl.
    unfold encountered. by rewrite flat_map_concat_map. }
  split.
  - intros artist song. rewrite rendered_elem, Hstored. apply store_all_elem.
  - f_equal. rewrite run_committed_connected by done.
    rewrite import_session_healthy by done. simpl.
    rewrite <- flat_map_concat_map. fold (encountered w
      (Importer.expand w (Importer.files a))). fold seen.
    apply store_all_present. intros r Hr. rewrite Hstored.
    apply store_all_elem. by right.
Qed.

Lemma imported_tracks_reach_the_page_witness :
  let w := Examples.sample_world in
  let stored := committed (db (snd (Importer.run w Examples.sample_args []))) in
  connect_fault w = None
  /\ healthy (faults w)
  /\ rendered stored
     = [ ("Abba", "Dancing Queen"); ("Abba", "Waterloo");
         ("Daft Punk", "One More Time") ]
  /\ rendered (committed (db (snd (Importer.run w Examples.sample_args stored))))
     = rendered stored.
Proof.
  intros w stored.
  assert (Hh : healthy (faults w)) by (intros n op; reflexivity).
  destruct (imported_tracks_reach_the_page w Examples.sample_args [] eq_refl Hh)
    as [_ H].
  split; [reflexivity|]. split; [exact Hh|].
  split; [vm_compute; reflexivity|exact H].
Defined.
